(** * CursedWidgets: interaction state machines of the curses widget toolkit

    A shallow embedding of the widgets of [cursedwidgets] (text box, menu
    selector, input field), of the bounded string painter and of the widget
    manager's focus loop, followed by the properties proved about them.

    Python integers are [Z]; a Python [str] is the list of its code points;
    an exception raised by the code is the [Raise] outcome of the [result]
    monad.  Calls into the [curses] collaborator that only paint are left
    out, except in the string painter, where the painted cells are the
    subject and every [addstr] call is logged. *)

From Stdlib Require Import String Ascii.
From Stdlib Require Import ZArith List Bool Lia.
Import ListNotations.
Local Open Scope Z_scope.

(** ** Python primitives *)

Module Py.

(** A character is its code point, [ord] and [chr] are then the identity. *)
Definition char := Z.
Definition str := list char.

Definition of_string (s : string) : str :=
  map (fun a => Z.of_N (N_of_ascii a)) (list_ascii_of_string s).

Inductive exn := IndexError | ZeroDivisionError | TypeError | CursesError.

Inductive result (A : Type) :=
| Ok (a : A)
| Raise (e : exn).
Arguments Ok {A} a.
Arguments Raise {A} e.

Definition bind {A B} (r : result A) (k : A -> result B) : result B :=
  match r with
  | Ok a => k a
  | Raise e => Raise e
  end.

Definition len {A} (l : list A) : Z := Z.of_nat (length l).

(** How a slice bound is brought into [0, len]: a negative bound counts
    from the end, and both ends are clamped. *)
Definition norm_idx (n i : Z) : Z :=
  if i <? 0 then Z.max (i + n) 0 else Z.min i n.

(** [s[lo:hi]], an omitted bound being [None]. *)
Definition slice {A} (s : list A) (lo hi : option Z) : list A :=
  let n := len s in
  let a := match lo with None => 0 | Some i => norm_idx n i end in
  let b := match hi with None => n | Some j => norm_idx n j end in
  firstn (Z.to_nat (b - a)) (skipn (Z.to_nat a) s).

(** [l[i]]: a negative index counts from the end, an index out of range
    raises [IndexError]. *)
Definition index {A} (l : list A) (i : Z) : result A :=
  let j := if i <? 0 then i + len l else i in
  if (0 <=? j) && (j <? len l)
  then match nth_error l (Z.to_nat j) with
       | Some a => Ok a
       | None => Raise IndexError
       end
  else Raise IndexError.

Fixpoint replace_nth {A} (l : list A) (n : nat) (v : A) : list A :=
  match l, n with
  | [], _ => []
  | _ :: t, O => v :: t
  | h :: t, S m => h :: replace_nth t m v
  end.

(** [l[i] = v]. *)
Definition setitem {A} (l : list A) (i : Z) (v : A) : result (list A) :=
  let j := if i <? 0 then i + len l else i in
  if (0 <=? j) && (j <? len l)
  then Ok (replace_nth l (Z.to_nat j) v)
  else Raise IndexError.

(** [range(n)]. *)
Definition range (n : Z) : list Z := map Z.of_nat (seq 0 (Z.to_nat n)).

(** ["".join(lines)]. *)
Definition join (lines : list str) : str := concat lines.

(** [a // b] and [a % b] are [Z.div] and [Z.modulo] (both round towards
    minus infinity); a zero divisor raises. *)
Definition floordiv (a b : Z) : result Z :=
  if b =? 0 then Raise ZeroDivisionError else Ok (a / b).

Definition pymod (a b : Z) : result Z :=
  if b =? 0 then Raise ZeroDivisionError else Ok (a mod b).

End Py.

Import Py.

Declare Scope py_scope.
Notation "x <- c ;; k" := (bind c (fun x => k))
(at level 61, c at next level, right associativity) : py_scope.
Local Open Scope py_scope.

(** ** Constants: [constants.py], [utils.py] and the key codes of [curses] *)

Inductive AlignmentOptions := LEFT | CENTER | RIGHT | MANUAL.
Inductive OrientationOptions := VERTICAL | HORIZONTAL.

Module SPECIAL_KEYS.
Definition ENTER : Z := 10.
Definition ESCAPE : Z := 27.
Definition BACKSPACE : Z := 127.
End SPECIAL_KEYS.

(** The values ncurses gives to the keypad keys. *)
Module curses.
Definition KEY_DOWN : Z := 258.
Definition KEY_UP : Z := 259.
Definition KEY_LEFT : Z := 260.
Definition KEY_RIGHT : Z := 261.
Definition KEY_BACKSPACE : Z := 263.

(** What the code reads of a window: [getmaxyx()]. *)
Record window := mkWindow { maxy : Z; maxx : Z }.

(** [win.derwin(nlines, ncols, y, x)]; where the sub-window is placed
    plays no part in what follows. *)
Definition derwin (nlines ncols : Z) : window := mkWindow nlines ncols.
End curses.

(** The code points of the twelve accented Latin letters that
    [is_key_printable] accepts besides ASCII 32..126: n and N with tilde,
    then the five vowels with acute accent, lower case and upper case. *)
Definition accented : list Z :=
[241; 209; 225; 233; 237; 243; 250; 193; 201; 205; 211; 218].

Definition is_key_printable (key : Z) : bool :=
((32 <=? key) && (key <=? 126)) || existsb (Z.eqb key) accented.

Definition chr (key : Z) : str := [key].

Fixpoint str_eqb (a b : str) : bool :=
  match a, b with
  | [], [] => true
  | c :: a', d :: b' => (c =? d) && str_eqb a' b'
  | _, _ => false
  end.

(** [edit_key == char], where [edit_key] may be [None]. *)
Definition opt_str_eqb (k : option str) (c : str) : bool :=
  match k with
  | Some s => str_eqb s c
  | None => false
  end.

(** What [handle_input] hands back to the focus loop: [None], or the
    selection. *)
Definition selection := option Z.

(** ** [widgets/text_box.py] *)

Module TextBox.

Record t := mk {
  win : curses.window;
  y : Z;
  x : Z;
  height : Z;
  width : Z;
  box_height : Z;
  box_width : Z;
  lines : list str;
  edit_key : option str;
  cursor_x : Z;
  cursor_y : Z;
  first_line_idx : Z;
  _edited : bool;
  _editable : bool;
  subwin : curses.window
}.

Definition set_lines (v : list str) (s : t) : t :=
  mk (win s) (y s) (x s) (height s) (width s) (box_height s) (box_width s)
     v (edit_key s) (cursor_x s) (cursor_y s) (first_line_idx s)
     (_edited s) (_editable s) (subwin s).

Definition set_cursor_x (v : Z) (s : t) : t :=
  mk (win s) (y s) (x s) (height s) (width s) (box_height s) (box_width s)
     (lines s) (edit_key s) v (cursor_y s) (first_line_idx s)
     (_edited s) (_editable s) (subwin s).

Definition set_cursor_y (v : Z) (s : t) : t :=
  mk (win s) (y s) (x s) (height s) (width s) (box_height s) (box_width s)
     (lines s) (edit_key s) (cursor_x s) v (first_line_idx s)
     (_edited s) (_editable s) (subwin s).

Definition set_first_line_idx (v : Z) (s : t) : t :=
  mk (win s) (y s) (x s) (height s) (width s) (box_height s) (box_width s)
     (lines s) (edit_key s) (cursor_x s) (cursor_y s) v
     (_edited s) (_editable s) (subwin s).

Definition set_edited (v : bool) (s : t) : t :=
  mk (win s) (y s) (x s) (height s) (width s) (box_height s) (box_width s)
     (lines s) (edit_key s) (cursor_x s) (cursor_y s) (first_line_idx s)
     v (_editable s) (subwin s).

Definition set_editable (v : bool) (s : t) : t :=
  mk (win s) (y s) (x s) (height s) (width s) (box_height s) (box_width s)
     (lines s) (edit_key s) (cursor_x s) (cursor_y s) (first_line_idx s)
     (_edited s) v (subwin s).

(** [_split_text]: of [self] it reads [box_width] only, and [__init__]
    calls it before the other attributes exist. *)
Definition _split_text (box_width : Z) (text : str) : result (list str) :=
  n_lines <- floordiv (len text + box_width + 1) box_width ;;
  let lines :=
    map (fun i => slice text (Some (i * box_width)) (Some ((i + 1) * box_width)))
        (range n_lines) in
  Ok (match lines with [] => [[]] | _ => lines end).

(** [__init__] with [_create_window] inlined; [_register_key_callbacks]
    is the dispatch of [handle_input], [_add_text] only paints.  The value
    is the object built when curses makes the sub-window and accepts what
    [_add_text] writes: a [curses.error] of [derwin] or of [addstr] is not
    part of this definition.  [subwin] is given the size asked of [derwin];
    curses reads a size of 0 as the rows or columns left in [win]. *)
Definition init (win : curses.window) (y x height width : Z) (text : str)
    (edit_key : option str) : result t :=
  let box_height := height - 2 in
  let box_width := width - 2 in
  lines <- _split_text box_width text ;;
  let max_w := curses.maxx win - x in
  let width' := Z.min width max_w in
  Ok (mk win y x height width' box_height box_width lines edit_key
         1 1 0 false
         (match edit_key with None => true | Some _ => false end)
         (curses.derwin height width')).

Definition _move (self : t) : t :=
  let h := curses.maxy (subwin self) in
  let w := curses.maxx (subwin self) in
  let self := set_cursor_y (Z.max 1 (Z.min (cursor_y self) (h - 2))) self in
  set_cursor_x (Z.max 1 (Z.min (cursor_x self) (w - 2))) self.

(** What [draw] does to the object; what it writes is [_add_text]. *)
Definition draw (is_active : bool) (self : t) : t :=
  if is_active then _move self else self.

Definition _recompute_lines (self : t) : result t :=
  let text := join (lines self) in
  ls <- _split_text (box_width self) text ;;
  Ok (set_lines ls self).

Definition _is_last_line (self : t) : bool :=
  first_line_idx self + cursor_y self =? len (lines self).

Definition _key_up_callback (self : t) : result t :=
  let self :=
    if (cursor_y self =? 1) && (first_line_idx self >? 0)
    then set_edited true (set_first_line_idx (first_line_idx self - 1) self)
    else self in
  Ok (set_cursor_y (Z.max 1 (cursor_y self - 1)) self).

Definition _key_down_callback (self : t) : result t :=
  if len (lines self) =? 1 then Ok self
  else
    let is_last_line_minus_one :=
      first_line_idx self + cursor_y self =? len (lines self) - 1 in
    blocked <- (if is_last_line_minus_one
                then last <- index (lines self) (-1) ;;
                     Ok (cursor_x self - 1 >? len last)
                else Ok false) ;;
    if (blocked : bool) then Ok self
    else
      let self :=
        if (cursor_y self =? box_height self) && negb (_is_last_line self)
        then set_edited true (set_first_line_idx (first_line_idx self + 1) self)
        else self in
      Ok (set_cursor_y (Z.min (box_height self) (cursor_y self + 1)) self).

Definition _key_left_callback (self : t) : result t :=
  if (cursor_x self =? 1) && (cursor_y self =? 1) && (first_line_idx self =? 0)
  then Ok self
  else if (cursor_x self =? 1) && (cursor_y self =? 1)
  then Ok (set_cursor_x (box_width self)
            (set_edited true
              (set_first_line_idx (first_line_idx self - 1) self)))
  else if cursor_x self =? 1
  then Ok (set_cursor_y (cursor_y self - 1)
            (set_cursor_x (box_width self) self))
  else Ok (set_cursor_x (cursor_x self - 1) self).

Definition _key_right_callback (self : t) : result t :=
  blocked <- (if _is_last_line self
              then last <- index (lines self) (-1) ;;
                   Ok (cursor_x self - 1 =? len last)
              else Ok false) ;;
  if (blocked : bool) then Ok self
  else if (cursor_x self =? box_width self) && (cursor_y self =? box_height self)
  then Ok (set_cursor_x 1
            (set_edited true
              (set_first_line_idx (first_line_idx self + 1) self)))
  else if cursor_x self =? box_width self
  then Ok (set_cursor_y (cursor_y self + 1) (set_cursor_x 1 self))
  else Ok (set_cursor_x (cursor_x self + 1) self).

Definition _key_esc_callback (self : t) : result t :=
  match edit_key self with
  | Some _ => Ok (set_editable false self)
  | None => Ok self
  end.

(** Returns the flag together with the updated object. *)
Definition _check_editable_flag (char : str) (self : t) : bool * t :=
  if negb (_editable self)
  then (false, set_editable (opt_str_eqb (edit_key self) char) self)
  else (true, self).

Definition _add_char (char : str) (self : t) : result t :=
  let (ok, self) := _check_editable_flag char self in
  if negb ok then Ok self
  else
    let line_idx := first_line_idx self + cursor_y self - 1 in
    line <- index (lines self) line_idx ;;
    let line := slice line None (Some (cursor_x self - 1)) ++ char
                ++ slice line (Some (cursor_x self - 1)) None in
    ls <- setitem (lines self) line_idx line ;;
    let self := set_lines ls self in
    let self :=
      if cursor_x self <? box_width self
      then set_cursor_x (cursor_x self + 1) self
      else if cursor_y self <? box_height self
      then set_cursor_y (cursor_y self + 1) (set_cursor_x 1 self)
      else set_cursor_x 1
             (set_first_line_idx (first_line_idx self + 1) self) in
    self <- _recompute_lines self ;;
    Ok (set_edited true self).

Definition _remove_char (self : t) : result t :=
  if negb (_editable self) then Ok self
  else if (cursor_x self =? 1) && (cursor_y self =? 1) then Ok self
  else
    self <-
      (if cursor_x self >? 1
       then
         let line_idx := first_line_idx self + cursor_y self - 1 in
         line <- index (lines self) line_idx ;;
         let line := slice line None (Some (cursor_x self - 2))
                     ++ slice line (Some (cursor_x self - 1)) None in
         ls <- setitem (lines self) line_idx line ;;
         Ok (set_cursor_x (cursor_x self - 1) (set_lines ls self))
       else if cursor_x self =? 1
       then
         let line_idx := first_line_idx self + cursor_y self - 2 in
         line <- index (lines self) line_idx ;;
         let line := slice line None (Some (-1)) in
         ls <- setitem (lines self) line_idx line ;;
         Ok (set_cursor_y (cursor_y self - 1)
              (set_cursor_x (width self) (set_lines ls self)))
       else Ok self) ;;
    self <- _recompute_lines self ;;
    Ok (set_edited true self).

(** The callback table of [_register_key_callbacks], then the printable
    keys; the value returned is always [None]. *)
Definition handle_input (key : Z) (self : t) : result (t * selection) :=
  self <-
    (if key =? curses.KEY_UP then _key_up_callback self
     else if key =? curses.KEY_DOWN then _key_down_callback self
     else if key =? curses.KEY_LEFT then _key_left_callback self
     else if key =? curses.KEY_RIGHT then _key_right_callback self
     else if key =? curses.KEY_BACKSPACE then _remove_char self
     else if key =? SPECIAL_KEYS.ESCAPE then _key_esc_callback self
     else if is_key_printable key then _add_char (chr key) self
     else Ok self) ;;
  Ok (self, None).

Definition get_text (self : t) : str := join (lines self).

(** A sequence of [handle_input] calls, the first exception ending it. *)
Fixpoint handle_inputs (keys : list Z) (self : t) : result t :=
  match keys with
  | [] => Ok self
  | key :: rest =>
      r <- handle_input key self ;;
      handle_inputs rest (fst r)
  end.

(** The loop of [_add_text]: [n] counts the rows written, so the rows still
    free in the box are what the recursion descends on; every
    [subwin.addstr(n + 1, 1, lines[i])] is returned as (row, column, text).
    These are the calls issued as long as curses accepts them. *)
Fixpoint add_text_loop (rows_left : nat) (i n : Z) (lines : list str)
    : result (list (Z * Z * str)) :=
  match rows_left with
  | O => Ok []
  | S rows_left' =>
      if i <? len lines then
        line <- index lines i ;;
        rest <- add_text_loop rows_left' (i + 1) (n + 1) lines ;;
        Ok ((n + 1, 1, line) :: rest)
      else Ok []
  end.

Definition _add_text (self : t) : result (list (Z * Z * str)) :=
  add_text_loop (Z.to_nat (box_height self)) (first_line_idx self) 0
    (lines self).

End TextBox.

(** ** [core/string_painter.py] *)

Module string_painter.

(** One [window.addstr(line, col, string, attr)] call. *)
Record paint := mkPaint {
  p_line : Z;
  p_col : Z;
  p_text : str;
  p_attr : option Z
}.

Definition _add_str_centered (window : curses.window) (line : Z) (string : str)
    (attr : option Z) : list paint :=
  let col := (curses.maxx window - len string) / 2 in
  [mkPaint line col string attr].

Definition _add_str_right (window : curses.window) (line : Z) (string : str)
    (attr : option Z) : list paint :=
  let col := curses.maxx window - len string - 1 in
  [mkPaint line col string attr].

Definition _add_str_left (window : curses.window) (line : Z) (string : str)
    (attr : option Z) : list paint :=
  [mkPaint line 1 string attr].

(** Under MANUAL alignment the code hands [attr] to [window.addstr] as it
    is, without the test for [None] of the three functions above, and
    [addstr] refuses [None] as an attribute with a [TypeError]. *)
Definition add_str_align (window : curses.window) (line col : Z) (string : str)
    (alignment : AlignmentOptions) (attr : option Z) : result (list paint) :=
  match alignment with
  | LEFT => Ok (_add_str_left window line string attr)
  | CENTER => Ok (_add_str_centered window line string attr)
  | RIGHT => Ok (_add_str_right window line string attr)
  | MANUAL =>
      match attr with
      | Some _ => Ok [mkPaint line col string attr]
      | None => Raise TypeError
      end
  end.

(** The [while] loop of [add_str_no_overflows].  It runs only while
    [extra_lines > 0] and takes one from it at every turn, so the number of
    extra lines left is what the recursion descends on; the line reached
    and the calls made are returned. *)
Fixpoint overflow_loop (extra_lines : nat) (window : curses.window)
    (line col : Z) (string : str) (available_cols : Z)
    (alignment : AlignmentOptions) (attr : option Z)
    : result (Z * list paint) :=
  match extra_lines with
  | O => Ok (line, [])
  | S extra_lines' =>
      if len string >? available_cols then
        if line + 1 >=? curses.maxy window - Z.of_nat extra_lines
        then Ok (line, [])
        else
          let string := slice string (Some available_cols) None in
          let line := line + 1 in
          here <- add_str_align window line col
                    (slice string None (Some available_cols)) alignment attr ;;
          r <- overflow_loop extra_lines' window line col string
                 available_cols alignment attr ;;
          Ok (fst r, here ++ snd r)
      else Ok (line, [])
  end.

(** Returns the next free line and, in order, the [addstr] calls made; an
    exception leaves it at the first call, before anything is written. *)
Definition add_str_no_overflows (window : curses.window) (line col : Z)
    (string : str) (extra_lines : Z) (alignment : AlignmentOptions)
    (attr : option Z) : result (Z * list paint) :=
  let available_cols := curses.maxx window - 2 in
  let available_cols :=
    match alignment with
    | MANUAL => available_cols - col
    | _ => available_cols
    end in
  first <- add_str_align window line col
             (slice string None (Some available_cols)) alignment attr ;;
  r <- overflow_loop (Z.to_nat extra_lines) window line col string
         available_cols alignment attr ;;
  Ok (fst r + 1, first ++ snd r).

Definition sum_len (strings : list str) : Z :=
  fold_left (fun acc s => acc + len s) strings 0.

(** The loops that place strings side by side, [next_start_x] being the
    running column. *)
Fixpoint place_row (start_line next_start_x spacing : Z) (strings : list str)
    : list (Z * Z) :=
  match strings with
  | [] => []
  | s :: rest =>
      (start_line, next_start_x)
      :: place_row start_line (next_start_x + len s + spacing) spacing rest
  end.

(** [for i, string in enumerate(strings)], one row per string. *)
Fixpoint place_column (col_of : str -> Z) (start_line i : Z)
    (strings : list str) : list (Z * Z) :=
  match strings with
  | [] => []
  | s :: rest =>
      (start_line + i, col_of s) :: place_column col_of start_line (i + 1) rest
  end.

Definition compute_strs_h_centered (window : curses.window) (start_line : Z)
    (strings : list str) (orientation : OrientationOptions) : list (Z * Z) :=
  match orientation with
  | VERTICAL =>
      place_column (fun s => (curses.maxx window - len s) / 2)
        start_line 0 strings
  | HORIZONTAL =>
      let spacing := (curses.maxx window - sum_len strings) / (len strings + 1) in
      place_row start_line spacing spacing strings
  end.

Definition compute_strs_h_left (_window : curses.window) (start_line : Z)
    (strings : list str) (orientation : OrientationOptions) : list (Z * Z) :=
  match orientation with
  | VERTICAL => place_column (fun _ => 0) start_line 0 strings
  | HORIZONTAL => place_row start_line 0 1 strings
  end.

Definition compute_strs_h_right (window : curses.window) (start_line : Z)
    (strings : list str) (orientation : OrientationOptions) : list (Z * Z) :=
  match orientation with
  | VERTICAL =>
      place_column (fun s => curses.maxx window - len s) start_line 0 strings
  | HORIZONTAL =>
      let spacing := 1 in
      let next_start_x :=
        curses.maxx window - sum_len strings - spacing * (len strings - 1) in
      place_row start_line next_start_x spacing strings
  end.

(** [None] for an alignment that is none of the three. *)
Definition compute_strs_h_aligned (window : curses.window) (start_line : Z)
    (strings : list str) (orientation : OrientationOptions)
    (alignment : AlignmentOptions) : option (list (Z * Z)) :=
  match alignment with
  | LEFT => Some (compute_strs_h_left window start_line strings orientation)
  | RIGHT => Some (compute_strs_h_right window start_line strings orientation)
  | CENTER => Some (compute_strs_h_centered window start_line strings orientation)
  | MANUAL => None
  end.

Definition compute_strs_centered (window : curses.window)
    (strings : list str) : list (Z * Z) :=
  place_column (fun s => (curses.maxx window - len s) / 2)
    ((curses.maxy window - len strings) / 2) 0 strings.

End string_painter.

(** ** [widgets/menu.py] *)

Module MenuSelector.

Record t := mk {
  win : curses.window;
  options : list str;
  y : Z;
  x : Z;
  height : Z;
  width : Z;
  orientation : OrientationOptions;
  alignment : AlignmentOptions;
  first_option_idx : Z;
  selected : Z;
  subwin : curses.window
}.

Definition set_first_option_idx (v : Z) (s : t) : t :=
  mk (win s) (options s) (y s) (x s) (height s) (width s) (orientation s)
     (alignment s) v (selected s) (subwin s).

Definition set_selected (v : Z) (s : t) : t :=
  mk (win s) (options s) (y s) (x s) (height s) (width s) (orientation s)
     (alignment s) (first_option_idx s) v (subwin s).

Definition is_vertical (o : OrientationOptions) : bool :=
  match o with VERTICAL => true | HORIZONTAL => false end.

Definition is_horizontal (o : OrientationOptions) : bool :=
  negb (is_vertical o).

(** [__init__] with [_create_window] inlined. *)
Definition init (win : curses.window) (options : list str)
    (y x height width : Z) (orientation : OrientationOptions)
    (alignment : AlignmentOptions) : t :=
  let max_w := curses.maxx win - x in
  let width' := Z.min width max_w in
  mk win options y x height width' orientation alignment 0 0
     (curses.derwin height width').

(** The loop of [draw] that reads [option_coords[i]] for every displayed
    option; subscripting [None] raises [TypeError]. *)
Fixpoint read_coords (option_coords : option (list (Z * Z))) (i : Z)
    (display_options : list str) : result unit :=
  match display_options with
  | [] => Ok tt
  | _ :: rest =>
      _ <- match option_coords with
           | None => Raise TypeError
           | Some cs => index cs i
           end ;;
      read_coords option_coords (i + 1) rest
  end.

(** [draw] changes nothing of the selector; it raises [TypeError] when the
    coordinates cannot be read.  The [subwin.addstr] calls are left to
    curses: a [curses.error] of theirs, for an option written outside the
    sub-window or up to its last cell, is not part of this definition, which
    gives the outcome of [draw] when curses accepts what is written. *)
Definition draw (is_active : bool) (self : t) : result t :=
  let display_options :=
    if is_vertical (orientation self) then
      let last_option_idx :=
        Z.min (first_option_idx self + height self - 1) (len (options self)) in
      slice (options self) (Some (first_option_idx self))
        (Some (last_option_idx + 1))
    else options self in
  let option_coords :=
    string_painter.compute_strs_h_aligned (subwin self) 0 display_options
      (orientation self) (alignment self) in
  _ <- read_coords option_coords 0 display_options ;;
  Ok self.

Definition _handle_key_up (self : t) : t :=
  if is_vertical (orientation self) && (selected self >? 0) then
    let self := set_selected (selected self - 1) self in
    if selected self <? first_option_idx self
    then set_first_option_idx (selected self) self
    else self
  else self.

Definition _handle_key_down (self : t) : t :=
  let max_idx := len (options self) - 1 in
  if is_vertical (orientation self) && (selected self <? max_idx) then
    let self := set_selected (selected self + 1) self in
    let last_option_idx :=
      Z.min (first_option_idx self + height self - 1) (len (options self)) in
    if selected self >? last_option_idx
    then set_first_option_idx (first_option_idx self + 1) self
    else self
  else self.

Definition handle_input (key : Z) (self : t) : t * selection :=
  let max_idx := len (options self) - 1 in
  if key =? curses.KEY_UP then (_handle_key_up self, None)
  else if key =? curses.KEY_DOWN then (_handle_key_down self, None)
  else if (key =? curses.KEY_LEFT) && is_horizontal (orientation self)
          && (selected self >? 0)
  then (set_selected (selected self - 1) self, None)
  else if (key =? curses.KEY_RIGHT) && is_horizontal (orientation self)
          && (selected self <? max_idx)
  then (set_selected (selected self + 1) self, None)
  else if key =? 10 then (self, Some (selected self))
  else (self, None).

Fixpoint handle_inputs (keys : list Z) (self : t) : t :=
  match keys with
  | [] => self
  | key :: rest => handle_inputs rest (fst (handle_input key self))
  end.

(** How [run] ends on the keys [subwin.getch()] delivers: with the index
    selected, with an exception of [draw], or blocked in [getch] once the
    keys are used up. *)
Inductive outcome :=
| Returned (result : Z)
| Raised (e : exn)
| Blocked (self : t).

Fixpoint run_loop (keys : list Z) (self : t) : outcome :=
  match keys with
  | [] => Blocked self
  | key :: rest =>
      match handle_input key self with
      | (_, Some result) => Returned result
      | (self', None) =>
          match draw true self' with
          | Raise e => Raised e
          | Ok self'' => run_loop rest self''
          end
      end
  end.

Definition run (keys : list Z) (self : t) : outcome :=
  match draw true self with
  | Raise e => Raised e
  | Ok self' => run_loop keys self'
  end.

End MenuSelector.

(** ** [widgets/input_field.py] *)

Module InputField.

Record t := mk {
  win : curses.window;
  y : Z;
  x : Z;
  label : str;
  is_password : bool;
  max_length : Z;
  spacing : Z;
  text : str;
  _value : str;
  subwin : curses.window
}.

(** [__init__] with [_create_window] inlined. *)
Definition init (win : curses.window) (y x : Z) (label : str)
    (is_password : bool) (max_length spacing : Z) : t :=
  let win_width :=
    Z.min (max_length + len label + spacing + 1) (curses.maxx win) in
  let max_length := win_width - len label - spacing - 1 in
  let max_length := if max_length <? 0 then 0 else max_length in
  mk win y x label is_password max_length spacing [] []
     (curses.derwin 1 win_width).

(** [draw] changes nothing of the field; what it writes is
    [draw_calls]. *)
Definition draw (is_active : bool) (self : t) : t := self.

Definition handle_input (key : Z) (self : t) : t * selection :=
  if is_key_printable key && (len (text self) <? max_length self) then
    (mk (win self) (y self) (x self) (label self) (is_password self)
        (max_length self) (spacing self)
        (text self ++ (if negb (is_password self) then chr key else [42]))
        (_value self ++ chr key)
        (subwin self), None)
  else if key =? curses.KEY_BACKSPACE then
    (mk (win self) (y self) (x self) (label self) (is_password self)
        (max_length self) (spacing self)
        (slice (text self) None (Some (-1)))
        (slice (_value self) None (Some (-1)))
        (subwin self), None)
  else (self, None).

Definition get_value (self : t) : str := _value self.

Fixpoint handle_inputs (keys : list Z) (self : t) : t :=
  match keys with
  | [] => self
  | key :: rest => handle_inputs rest (fst (handle_input key self))
  end.

(** What [draw] writes: the two [subwin.addstr] calls as (row, column,
    text), the label first, and, when the field is active, the position
    given to [win.move]. *)
Definition draw_calls (is_active : bool) (self : t)
    : list (Z * Z * str) * option (Z * Z) :=
  let calls := [(0, 0, label self); (0, len (label self) + 1, text self)] in
  if is_active then
    let cursor_y := y self in
    let cursor_x := x self + len (label self) + 1 + len (text self) in
    let cursor_x :=
      Z.max 0 (Z.min cursor_x (x self + curses.maxx (subwin self) - 1)) in
    (calls, Some (cursor_y, cursor_x))
  else (calls, None).

End InputField.

(** ** [core/widget_manager.py] *)

Module WidgetManager.

(** The three implementations of [SelectableWidget]. *)
Inductive widget :=
| Input (f : InputField.t)
| Menu (m : MenuSelector.t)
| Text (b : TextBox.t).

(** [selector.draw(is_active=...)] on each kind of widget: the widget
    after the call, when curses accepts what the widget writes (see the
    three [draw] above); the only exception here is the [TypeError] of a
    menu selector. *)
Definition draw (is_active : bool) (w : widget) : result widget :=
  match w with
  | Input f => Ok (Input (InputField.draw is_active f))
  | Menu m => m' <- MenuSelector.draw is_active m ;; Ok (Menu m')
  | Text b => Ok (Text (TextBox.draw is_active b))
  end.

Definition handle_input (key : Z) (w : widget) : result (widget * selection) :=
  match w with
  | Input f =>
      let (f', r) := InputField.handle_input key f in Ok (Input f', r)
  | Menu m =>
      let (m', r) := MenuSelector.handle_input key m in Ok (Menu m', r)
  | Text b =>
      p <- TextBox.handle_input key b ;; Ok (Text (fst p), snd p)
  end.

(** The entries of [widgets] are taken to be distinct objects, so that a
    widget changed in place is the entry at its index replaced. *)
Record t := mk {
  widgets : list widget;
  active_selector : Z
}.

Definition init (widgets : list widget) : t := mk widgets 0.

Fixpoint draw_from (i active : Z) (ws : list widget) : result (list widget) :=
  match ws with
  | [] => Ok []
  | w :: rest =>
      w' <- draw (i =? active) w ;;
      rest' <- draw_from (i + 1) active rest ;;
      Ok (w' :: rest')
  end.

Definition draw_all (self : t) : result t :=
  ws <- draw_from 0 (active_selector self) (widgets self) ;;
  Ok (mk ws (active_selector self)).

(** How [run] ends on the keys [stdscr.getch()] delivers: it returns the
    pair, an exception leaves it, or the keys read so far are used up and
    it is blocked in [getch]. *)
Inductive outcome :=
| Returned (self : t) (pair : Z * Z)
| Raised (e : exn)
| Blocked (self : t).

Fixpoint loop (keys : list Z) (self : t) : outcome :=
  match keys with
  | [] => Blocked self
  | key :: rest =>
      if key =? 9 then
        match pymod (active_selector self + 1) (len (widgets self)) with
        | Raise e => Raised e
        | Ok a =>
            match draw_all (mk (widgets self) a) with
            | Raise e => Raised e
            | Ok self' => loop rest self'
            end
        end
      else
        match
          w <- index (widgets self) (active_selector self) ;;
          p <- handle_input key w ;;
          ws <- setitem (widgets self) (active_selector self) (fst p) ;;
          Ok (mk ws (active_selector self), snd p)
        with
        | Raise e => Raised e
        | Ok (self', Some result) =>
            Returned self' (active_selector self', result)
        | Ok (self', None) =>
            match draw_all self' with
            | Raise e => Raised e
            | Ok self'' => loop rest self''
            end
        end
  end.

Definition run (keys : list Z) (self : t) : outcome :=
  match draw_all self with
  | Raise e => Raised e
  | Ok self' => loop keys self'
  end.

End WidgetManager.

(** ** [core/window_utils.py] *)

Module window_utils.

(** A window made by [curses.newwin] and where it is placed. *)
Record placed := mkPlaced {
  nlines : Z;
  ncols : Z;
  begin_y : Z;
  begin_x : Z
}.

(** [curses.newwin(nlines, ncols, begin_y, begin_x)] on the screen
    [stdscr]: a negative size or position is refused with [curses.error]; a
    size of 0 stands for the rows, or columns, from the position to the edge
    of the screen; and a window must have at least one row and one
    column. *)
Definition newwin (stdscr : curses.window) (nlines ncols begin_y begin_x : Z)
    : result placed :=
  if (begin_y <? 0) || (begin_x <? 0) || (nlines <? 0) || (ncols <? 0)
  then Raise CursesError
  else
    let nlines := if nlines =? 0 then curses.maxy stdscr - begin_y else nlines in
    let ncols := if ncols =? 0 then curses.maxx stdscr - begin_x else ncols in
    if (nlines <=? 0) || (ncols <=? 0) then Raise CursesError
    else Ok (mkPlaced nlines ncols begin_y begin_x).

(** The first component of [getmaxyx()] is bound to [center_x] and the
    second to [center_y], as in the source; [stdscr] is the standard
    screen.  [win.box()] draws inside the window made. *)
Definition create_center_window (stdscr : curses.window) (height width : Z)
    : result placed :=
  let center_x := curses.maxy stdscr in
  let center_y := curses.maxx stdscr in
  let center_x := center_x / 2 - height / 2 in
  let center_y := center_y / 2 - width / 2 in
  newwin stdscr height width center_x center_y.

Definition compute_window_centered_position (stdscr : curses.window)
    (height width : Z) : Z * Z :=
  let center_y := curses.maxy stdscr in
  let center_x := curses.maxx stdscr in
  let center_x := center_x / 2 - width / 2 in
  let center_y := center_y / 2 - height / 2 in
  (center_y, center_x).

End window_utils.

(** ** Widgets used in the examples *)

Module Fixture.

(** A parent window of 24 rows and 80 columns. *)
Definition screen : curses.window := curses.mkWindow 24 80.

(** An empty, editable text box of interior width 5, [height] rows high
    with its border. *)
Definition box (height : Z) : result TextBox.t :=
  TextBox.init screen 0 0 height 7 [] None.

Definition abc : list str := [of_string "A"; of_string "B"; of_string "C"].

End Fixture.

(** * Properties *)

(** ** Slices, indexing and item assignment on non-negative positions *)

Section PyFacts.

Context {A : Type}.
Implicit Types (s l : list A).

Lemma len_nonneg l : 0 <= len l.
Proof. unfold len; lia. Qed.

Lemma len_app l1 l2 : len (l1 ++ l2) = len l1 + len l2.
Proof. unfold len; rewrite length_app; lia. Qed.

Lemma slice_between s a b :
  0 <= a -> 0 <= b ->
  slice s (Some a) (Some b)
  = firstn (Z.to_nat b - Z.to_nat a) (skipn (Z.to_nat a) s).
Proof.
  intros Ha Hb. unfold slice, norm_idx, len.
  rewrite (proj2 (Z.ltb_ge a 0) Ha), (proj2 (Z.ltb_ge b 0) Hb).
  destruct (Z_le_gt_dec a (Z.of_nat (length s))) as [Hle | Hgt].
  - rewrite (Z.min_l a) by lia.
    destruct (Z_le_gt_dec b (Z.of_nat (length s))) as [Hb' | Hb'].
    + rewrite Z.min_l by lia. f_equal. lia.
    + rewrite Z.min_r by lia.
      rewrite !firstn_all2; trivial; rewrite length_skipn; lia.
  - rewrite (Z.min_r a) by lia. rewrite Nat2Z.id.
    rewrite skipn_all, firstn_nil.
    rewrite (skipn_all2 s) by lia. now rewrite firstn_nil.
Qed.

Lemma slice_upto s b : 0 <= b -> slice s None (Some b) = firstn (Z.to_nat b) s.
Proof.
  intros Hb. unfold slice, norm_idx, len.
  rewrite (proj2 (Z.ltb_ge b 0) Hb). cbn [skipn Z.to_nat].
  rewrite Z.sub_0_r.
  destruct (Z_le_gt_dec b (Z.of_nat (length s))).
  - now rewrite Z.min_l by lia.
  - rewrite Z.min_r by lia. rewrite Nat2Z.id.
    rewrite firstn_all. symmetry. apply firstn_all2. lia.
Qed.

Lemma slice_from s a : 0 <= a -> slice s (Some a) None = skipn (Z.to_nat a) s.
Proof.
  intros Ha. unfold slice, norm_idx, len.
  rewrite (proj2 (Z.ltb_ge a 0) Ha).
  destruct (Z_le_gt_dec a (Z.of_nat (length s))).
  - rewrite Z.min_l by lia. apply firstn_all2. rewrite length_skipn. lia.
  - rewrite Z.min_r by lia. rewrite Nat2Z.id, skipn_all, firstn_nil.
    symmetry. apply skipn_all2. lia.
Qed.

(** [s[:-1]] drops the last element, if there is one. *)
Lemma slice_drop_last s :
  slice s None (Some (-1)) = firstn (length s - 1) s.
Proof.
  unfold slice, norm_idx, len. cbn [Z.ltb Z.compare skipn Z.to_nat].
  f_equal. lia.
Qed.

Lemma index_nth l (i : nat) a :
  nth_error l i = Some a -> index l (Z.of_nat i) = Ok a.
Proof.
  intros H. unfold index, len.
  assert (Hlt : (i < length l)%nat) by (apply nth_error_Some; congruence).
  rewrite (proj2 (Z.ltb_ge (Z.of_nat i) 0)) by lia.
  rewrite (proj2 (Z.leb_le 0 (Z.of_nat i))) by lia.
  rewrite (proj2 (Z.ltb_lt (Z.of_nat i) (Z.of_nat (length l)))) by lia.
  cbn [andb]. now rewrite Nat2Z.id, H.
Qed.

Lemma setitem_nth l (i : nat) v :
  (i < length l)%nat -> setitem l (Z.of_nat i) v = Ok (replace_nth l i v).
Proof.
  intros Hlt. unfold setitem, len.
  rewrite (proj2 (Z.ltb_ge (Z.of_nat i) 0)) by lia.
  rewrite (proj2 (Z.leb_le 0 (Z.of_nat i))) by lia.
  rewrite (proj2 (Z.ltb_lt (Z.of_nat i) (Z.of_nat (length l)))) by lia.
  cbn [andb]. now rewrite Nat2Z.id.
Qed.

Lemma replace_nth_length l n v : length (replace_nth l n v) = length l.
Proof.
  revert n; induction l as [|h t IH]; intros [|n]; cbn; auto.
Qed.

(** Assigning item [n] keeps what precedes and what follows it. *)
Lemma replace_nth_split l n v :
  (n < length l)%nat ->
  replace_nth l n v = firstn n l ++ v :: skipn (S n) l.
Proof.
  revert n; induction l as [|h t IH]; intros [|n] Hn; cbn in *; try lia.
  - reflexivity.
  - f_equal. apply IH. lia.
Qed.

Lemma nth_error_split_at l n a :
  nth_error l n = Some a -> l = firstn n l ++ a :: skipn (S n) l.
Proof.
  revert n; induction l as [|h t IH]; intros [|n] H; cbn in *; try discriminate.
  - congruence.
  - f_equal. now apply IH.
Qed.

Lemma firstn_plus l (a c : nat) :
  firstn (a + c) l = firstn a l ++ firstn c (skipn a l).
Proof.
  revert l; induction a as [|a IH]; intros [|h t]; cbn; auto.
  - now rewrite firstn_nil.
  - now rewrite IH.
Qed.

End PyFacts.

(** ** Reflow: [_split_text] cuts a text into consecutive pieces *)

Module Reflow.

(** The first [n] pieces of width [w] of [text]. *)
Definition chunks (w n : nat) (text : str) : list str :=
  map (fun i => firstn w (skipn (i * w) text)) (seq 0 n).

Lemma chunks_S w n text :
  chunks w (S n) text = chunks w n text ++ [firstn w (skipn (n * w) text)].
Proof. unfold chunks. now rewrite seq_S, map_app. Qed.

Lemma chunks_length w n text : length (chunks w n text) = n.
Proof. unfold chunks. now rewrite length_map, length_seq. Qed.

Lemma join_chunks w n text : join (chunks w n text) = firstn (n * w) text.
Proof.
  induction n as [|n IH].
  - reflexivity.
  - rewrite chunks_S. unfold join in *. rewrite concat_app, IH. cbn [concat].
    rewrite app_nil_r. cbn [Nat.mul]. rewrite (Nat.add_comm w).
    now rewrite firstn_plus.
Qed.

Lemma chunks_nth w n text i :
  (i < n)%nat ->
  nth_error (chunks w n text) i = Some (firstn w (skipn (i * w) text)).
Proof.
  intros Hi. unfold chunks.
  rewrite nth_error_map, nth_error_seq.
  destruct (Nat.ltb_spec i n); [reflexivity | lia].
Qed.

Lemma firstn_seq_le i : forall start n,
  (i <= n)%nat -> firstn i (seq start n) = seq start i.
Proof.
  induction i as [|i IH]; intros start [|n] Hi; cbn; try lia; trivial.
  f_equal. apply IH. lia.
Qed.

Lemma chunks_firstn w n text i :
  (i <= n)%nat -> firstn i (chunks w n text) = chunks w i text.
Proof.
  intros Hi. unfold chunks. rewrite firstn_map. f_equal.
  now apply firstn_seq_le.
Qed.

(** The number of lines [_split_text] makes. *)
Definition n_lines (W : Z) (text : str) : nat :=
  Z.to_nat ((len text + W + 1) / W).

Lemma n_lines_covers W text :
  0 < W -> (length text < n_lines W text * Z.to_nat W)%nat.
Proof.
  intros HW. unfold n_lines, len.
  set (L := Z.of_nat (length text)).
  assert (Hq : 0 <= (L + W + 1) / W) by (apply Z.div_pos; lia).
  assert (Hm : W * ((L + W + 1) / W) > L + W + 1 - W).
  { pose proof (Z.mul_succ_div_gt (L + W + 1) W HW). lia. }
  apply Nat2Z.inj_lt. rewrite Nat2Z.inj_mul, !Z2Nat.id by lia. lia.
Qed.

Lemma n_lines_pos W text : 0 < W -> (0 < n_lines W text)%nat.
Proof. intros HW. pose proof (n_lines_covers W text HW). lia. Qed.

Lemma split_text_chunks W text :
  0 < W ->
  TextBox._split_text W text
  = Ok (chunks (Z.to_nat W) (n_lines W text) text).
Proof.
  intros HW. unfold TextBox._split_text, floordiv.
  rewrite (proj2 (Z.eqb_neq W 0)) by lia. cbn [bind].
  unfold range. fold (n_lines W text). rewrite map_map.
  assert (E : map (fun i : nat =>
                     slice text (Some (Z.of_nat i * W))
                       (Some ((Z.of_nat i + 1) * W)))
                  (seq 0 (n_lines W text))
              = chunks (Z.to_nat W) (n_lines W text) text).
  { unfold chunks. apply map_ext. intros i.
    rewrite slice_between by lia. f_equal.
    - rewrite !Z2Nat.inj_mul, Z2Nat.inj_add, Nat2Z.id by lia.
      change (Z.to_nat 1) with 1%nat. lia.
    - now rewrite Z2Nat.inj_mul, Nat2Z.id by lia. }
  rewrite E.
  pose proof (n_lines_pos W text HW) as Hn.
  destruct (chunks (Z.to_nat W) (n_lines W text) text) eqn:Ec; trivial.
  apply (f_equal (@length _)) in Ec. rewrite chunks_length in Ec.
  cbn in Ec. lia.
Qed.

Lemma join_split_text W text ls :
  0 < W -> TextBox._split_text W text = Ok ls -> join ls = text.
Proof.
  intros HW H. rewrite split_text_chunks in H by trivial.
  injection H as <-. rewrite join_chunks.
  apply firstn_all2. pose proof (n_lines_covers W text HW). lia.
Qed.

(** C2: for every text and every box width [W > 0], joining the lines that
    [_split_text] makes gives the text back, and [_recompute_lines], the
    reflow run after every edit, succeeds and leaves the joined content of
    the box as it was. *)
Theorem reflow_preserves_content (W : Z) :
  0 < W ->
  (forall text, exists ls,
      TextBox._split_text W text = Ok ls /\ join ls = text)
  /\ (forall self, TextBox.box_width self = W ->
        exists self',
          TextBox._recompute_lines self = Ok self'
          /\ TextBox.get_text self' = TextBox.get_text self).
Proof.
  intros HW. split.
  - intros text. eexists. split.
    + now apply split_text_chunks.
    + eapply join_split_text; eauto using split_text_chunks.
  - intros self Hw. unfold TextBox._recompute_lines. rewrite Hw.
    rewrite split_text_chunks by trivial. cbn [bind].
    eexists. split; [reflexivity|].
    unfold TextBox.get_text. cbn [TextBox.lines TextBox.set_lines].
    eapply join_split_text; eauto using split_text_chunks.
Qed.

Lemma reflow_preserves_content_witness :
  (exists ls, TextBox._split_text 5 (of_string "HELLOWORLD") = Ok ls
              /\ join ls = of_string "HELLOWORLD").
Proof.
  exact (proj1 (reflow_preserves_content 5 eq_refl) (of_string "HELLOWORLD")).
Defined.

End Reflow.

(** ** Text box scenarios *)

Module TextBoxScenario.

Import TextBox.

(** C1, as the code has it: from an empty text box of interior width 5 and
    interior height at least 2, the ten keys of HELLOWORLD leave the lines
    HELLO, WORLD and an empty third line, the cursor in column 1; the
    cursor is in row 3 when the box has a third row, and otherwise stays in
    row 2 with the window scrolled down by one line. *)
Theorem hello_world_wraps (win : curses.window) (y x height : Z) :
  2 <= height - 2 ->
  exists self,
    (b <- init win y x height 7 [] None ;;
     handle_inputs (of_string "HELLOWORLD") b) = Ok self
    /\ lines self = [of_string "HELLO"; of_string "WORLD"; []]
    /\ cursor_x self = 1
    /\ cursor_y self = (if height - 2 =? 2 then 2 else 3)
    /\ first_line_idx self = (if height - 2 =? 2 then 1 else 0).
Proof.
  intros Hh. unfold init.
  generalize (Z.min 7 (curses.maxx win - x)) as w.
  generalize dependent (height - 2). intros bh Hh w.
  destruct bh as [|p|p]; try lia.
  destruct p as [[q|q|]|[q|q|]|]; try lia;
    (eexists; split; [vm_compute; reflexivity | repeat split]).
Qed.

Lemma hello_world_wraps_witness :
  exists self,
    (b <- init Fixture.screen 0 0 4 7 [] None ;;
     handle_inputs (of_string "HELLOWORLD") b) = Ok self
    /\ lines self = [of_string "HELLO"; of_string "WORLD"; []]
    /\ cursor_x self = 1
    /\ cursor_y self = 2
    /\ first_line_idx self = 1.
Proof.
  apply (hello_world_wraps Fixture.screen 0 0 4). vm_compute. discriminate.
Defined.

(** The lines and the cursor that Scenario B announces are not what the
    keys produce. *)
Lemma hello_world_not_as_announced :
  ~ exists self,
      (b <- init Fixture.screen 0 0 4 7 [] None ;;
       handle_inputs (of_string "HELLOWORLD") b) = Ok self
      /\ lines self = [of_string "HELLO"; of_string "WORLD"]
      /\ cursor_y self = 2
      /\ cursor_x self = 6.
Proof.
  intros (self & Hrun & Hlines & _).
  vm_compute in Hrun. injection Hrun as <-.
  vm_compute in Hlines. discriminate.
Qed.

End TextBoxScenario.

(** Brings the boolean tests of the code into the form [lia] reads. *)
Ltac tests_to_props :=
  repeat match goal with
    | H : andb _ _ = true |- _ => apply andb_true_iff in H; destruct H
    | H : andb _ _ = false |- _ => apply andb_false_iff in H; destruct H
    | H : (_ >? _) = _ |- _ => rewrite Z.gtb_ltb in H
    | H : (_ <? _) = true |- _ => apply Z.ltb_lt in H
    | H : (_ <? _) = false |- _ => apply Z.ltb_ge in H
    | H : (_ =? _) = true |- _ => apply Z.eqb_eq in H
    | H : (_ =? _) = false |- _ => apply Z.eqb_neq in H
    end.

(** ** Menu selector: the selection and the scroll offset stay in range *)

Module MenuBounds.

Import MenuSelector.

Section Invariant.

Variable n : Z.
Variable h : Z.

(** The two bounds, for a selector with [n] options and height [h]. *)
Definition in_range (m : t) : Prop :=
  len (options m) = n /\ height m = h
  /\ 0 <= selected m <= n - 1
  /\ 0 <= first_option_idx m <= Z.max 0 (n - h).

Lemma key_up_in_range m : in_range m -> in_range (_handle_key_up m).
Proof.
  unfold in_range, _handle_key_up. intros (Hn & Hh & Hs & Hf).
  destruct (is_vertical (orientation m) && (selected m >? 0)) eqn:E1;
    cbn; [|tauto].
  destruct (selected m - 1 <? first_option_idx m) eqn:E2; cbn;
    tests_to_props; repeat split; lia.
Qed.

Lemma key_down_in_range m : in_range m -> in_range (_handle_key_down m).
Proof.
  unfold in_range, _handle_key_down. intros (Hn & Hh & Hs & Hf).
  destruct (is_vertical (orientation m) && (selected m <? len (options m) - 1))
    eqn:E1; cbn; [|tauto].
  destruct (selected m + 1
            >? Z.min (first_option_idx m + height m - 1) (len (options m)))
    eqn:E2; cbn; tests_to_props; repeat split; lia.
Qed.

Lemma handle_input_in_range key m :
  in_range m -> in_range (fst (handle_input key m)).
Proof.
  intros Hm. unfold handle_input.
  destruct (key =? curses.KEY_UP); [now apply key_up_in_range|].
  destruct (key =? curses.KEY_DOWN); [now apply key_down_in_range|].
  destruct ((key =? curses.KEY_LEFT) && is_horizontal (orientation m)
            && (selected m >? 0)) eqn:E1.
  { destruct Hm as (Hn & Hh & Hs & Hf). unfold in_range. cbn.
    tests_to_props; repeat split; lia. }
  destruct ((key =? curses.KEY_RIGHT) && is_horizontal (orientation m)
            && (selected m <? len (options m) - 1)) eqn:E2.
  { destruct Hm as (Hn & Hh & Hs & Hf). unfold in_range. cbn.
    tests_to_props; repeat split; lia. }
  destruct (key =? 10); exact Hm.
Qed.

Lemma handle_inputs_in_range keys :
  forall m, in_range m -> in_range (handle_inputs keys m).
Proof.
  induction keys as [|key rest IH]; intros m Hm; cbn [handle_inputs].
  - exact Hm.
  - apply IH. now apply handle_input_in_range.
Qed.

End Invariant.

(** C7: a selector built over a non-empty list of [n] options with window
    height [height] has, after any sequence of keys (Up, Down and Enter
    among them), [selected] in [0, n-1] and [first_option_idx] in
    [0, max(0, n - height)]. *)
Theorem selection_and_scroll_in_range
    (win : curses.window) (opts : list str) (y x height width : Z)
    (orientation : OrientationOptions) (alignment : AlignmentOptions)
    (keys : list Z) :
  opts <> [] ->
  let m := handle_inputs keys
             (init win opts y x height width orientation alignment) in
  let n := len opts in
  0 <= selected m <= n - 1
  /\ 0 <= first_option_idx m <= Z.max 0 (n - height).
Proof.
  intros Hne m n.
  assert (H0 : in_range n height
                 (init win opts y x height width orientation alignment)).
  { unfold in_range, init; cbn. subst n. unfold len.
    destruct opts; [congruence|]. cbn [length]. repeat split; lia. }
  apply (handle_inputs_in_range n height keys) in H0.
  destruct H0 as (_ & _ & Hs & Hf). split; assumption.
Qed.

Lemma selection_and_scroll_in_range_witness :
  let m := handle_inputs [curses.KEY_DOWN; curses.KEY_DOWN; 10; curses.KEY_UP]
             (init Fixture.screen Fixture.abc 0 0 2 10 VERTICAL LEFT) in
  0 <= selected m <= 3 - 1
  /\ 0 <= first_option_idx m <= Z.max 0 (3 - 2).
Proof.
  apply (selection_and_scroll_in_range Fixture.screen Fixture.abc 0 0 2 10
           VERTICAL LEFT [curses.KEY_DOWN; curses.KEY_DOWN; 10; curses.KEY_UP]).
  discriminate.
Defined.

(** A selector can be built over no option at all: [__init__] sets
    [selected] to 0 whatever the list, and with [n = 0] the interval
    [0, n-1] is empty.  The scroll offset is in its range even then. *)
Lemma empty_menu_selection_out_of_range :
  let m := handle_inputs [curses.KEY_DOWN; 10; curses.KEY_UP]
             (init Fixture.screen [] 0 0 2 10 VERTICAL LEFT) in
  let n := len (options m) in
  n = 0
  /\ selected m = 0
  /\ ~ (0 <= selected m <= n - 1)
  /\ 0 <= first_option_idx m <= Z.max 0 (n - 2).
Proof. cbn. repeat split; lia. Qed.

End MenuBounds.

(** ** Input field: the value never outgrows [max_length] *)

Module InputBound.

Import InputField.

(** Both buffers have the same length, at most [max_length]. *)
Definition bounded (f : t) : Prop :=
  len (text f) = len (_value f) /\ len (_value f) <= max_length f.

Lemma init_bounded win y x label is_password max_length spacing :
  bounded (init win y x label is_password max_length spacing).
Proof.
  unfold bounded, init; cbn. split; [reflexivity|].
  destruct (_ <? 0) eqn:E; [lia|]. apply Z.ltb_ge in E. exact E.
Qed.

Lemma len_drop_last (s : str) : len (slice s None (Some (-1))) = Z.max 0 (len s - 1).
Proof.
  rewrite slice_drop_last. unfold len. rewrite length_firstn. lia.
Qed.

Lemma handle_input_bounded key f :
  bounded f ->
  bounded (fst (handle_input key f))
  /\ max_length (fst (handle_input key f)) = max_length f.
Proof.
  unfold bounded, handle_input. intros (Heq & Hle).
  destruct (is_key_printable key && (len (text f) <? max_length f)) eqn:E.
  - apply andb_true_iff in E. destruct E as (_ & E). apply Z.ltb_lt in E.
    cbn [fst text _value max_length]. rewrite !len_app.
    assert (H1 : len (if negb (is_password f) then chr key else [42]) = 1)
      by (destruct (is_password f); reflexivity).
    assert (H2 : len (chr key) = 1) by reflexivity.
    repeat split; lia.
  - destruct (key =? curses.KEY_BACKSPACE); cbn.
    + rewrite !len_drop_last. pose proof (len_nonneg (_value f)).
      repeat split; [now rewrite Heq | lia].
    + tauto.
Qed.

Lemma handle_inputs_bounded keys :
  forall f, bounded f ->
    bounded (handle_inputs keys f)
    /\ max_length (handle_inputs keys f) = max_length f.
Proof.
  induction keys as [|key rest IH]; intros f Hf; cbn [handle_inputs].
  - tauto.
  - destruct (handle_input_bounded key f Hf) as (Hb & Hm).
    destruct (IH _ Hb) as (Hb' & Hm'). split; [assumption | congruence].
Qed.

(** C8: after construction and any sequence of [handle_input] calls the
    true value is no longer than [max_length] (and as long as the displayed
    text); and a call that makes it longer was given a printable key while
    the value was strictly shorter than [max_length], and appended that
    key. *)
Theorem value_within_max_length
    (win : curses.window) (y x : Z) (label : str) (is_password : bool)
    (max_len spacing : Z) (keys : list Z) (key : Z) :
  let f := handle_inputs keys
             (init win y x label is_password max_len spacing) in
  len (_value f) <= max_length f
  /\ len (text f) = len (_value f)
  /\ (len (_value f) < len (_value (fst (handle_input key f))) ->
      is_key_printable key = true
      /\ len (_value f) < max_length f
      /\ _value (fst (handle_input key f)) = _value f ++ chr key).
Proof.
  intros f.
  destruct (handle_inputs_bounded keys _
              (init_bounded win y x label is_password max_len spacing))
    as ((Heq & Hle) & _). fold f in Heq, Hle.
  pose proof (len_nonneg (_value f)) as Hnn.
  split; [exact Hle | split; [exact Heq |]].
  intros H. unfold handle_input in *.
  destruct (is_key_printable key && (len (text f) <? max_length f)) eqn:E.
  - apply andb_true_iff in E. destruct E as (Ep & El).
    apply Z.ltb_lt in El. rewrite Heq in El.
    cbn [fst _value]. repeat split; assumption.
  - exfalso.
    destruct (key =? curses.KEY_BACKSPACE); cbn [fst _value] in H;
      [rewrite len_drop_last in H|]; lia.
Qed.

End InputBound.

(** ** Text box: the edit gate *)

Module EditGate.

Import TextBox.

Lemma index_last {A} (l : list A) : l <> [] -> exists a, index l (-1) = Ok a.
Proof.
  intros Hne. unfold index, len. cbn [Z.ltb Z.compare].
  assert (Hl : (0 < length l)%nat) by (destruct l; [congruence | cbn; lia]).
  rewrite (proj2 (Z.leb_le 0 (-1 + Z.of_nat (length l)))) by lia.
  rewrite (proj2 (Z.ltb_lt (-1 + Z.of_nat (length l)) (Z.of_nat (length l))))
    by lia.
  cbn [andb].
  destruct (nth_error l (Z.to_nat (-1 + Z.of_nat (length l)))) eqn:E.
  - now exists a.
  - apply nth_error_None in E. lia.
Qed.

(** A key that switches editing on: printable, and the activation key. *)
Definition activates (k : option str) (key : Z) : bool :=
  is_key_printable key && opt_str_eqb k (chr key).

(** The box is closed for editing, over the lines [ls]. *)
Definition gated (ls : list str) (k : option str) (self : t) : Prop :=
  _editable self = false /\ lines self = ls /\ edit_key self = k.

Lemma up_keeps_gate ls k self :
  gated ls k self -> exists s, _key_up_callback self = Ok s /\ gated ls k s.
Proof.
  intros G. unfold _key_up_callback. eexists; split; [reflexivity|].
  destruct ((cursor_y self =? 1) && (first_line_idx self >? 0)); exact G.
Qed.

Lemma down_keeps_gate ls k self :
  ls <> [] -> gated ls k self ->
  exists s, _key_down_callback self = Ok s /\ gated ls k s.
Proof.
  intros Hne G. pose proof G as (He & Hl & Hk). unfold _key_down_callback.
  destruct (len (lines self) =? 1); [now exists self|].
  destruct (index_last (lines self)) as (a & Ha); [congruence|].
  rewrite Ha.
  destruct (first_line_idx self + cursor_y self =? len (lines self) - 1);
    cbn [bind].
  - destruct (cursor_x self - 1 >? len a); [now exists self|].
    eexists; split; [reflexivity|].
    destruct ((cursor_y self =? box_height self) && negb (_is_last_line self));
      exact G.
  - eexists; split; [reflexivity|].
    destruct ((cursor_y self =? box_height self) && negb (_is_last_line self));
      exact G.
Qed.

Lemma left_keeps_gate ls k self :
  gated ls k self -> exists s, _key_left_callback self = Ok s /\ gated ls k s.
Proof.
  intros G. unfold _key_left_callback.
  repeat match goal with
    | |- context [if ?c then _ else _] => destruct c
    end; eexists; (split; [reflexivity | exact G]).
Qed.

Lemma right_keeps_gate ls k self :
  ls <> [] -> gated ls k self ->
  exists s, _key_right_callback self = Ok s /\ gated ls k s.
Proof.
  intros Hne G. pose proof G as (He & Hl & Hk). unfold _key_right_callback.
  destruct (index_last (lines self)) as (a & Ha); [congruence|].
  rewrite Ha.
  destruct (_is_last_line self); cbn [bind];
    repeat match goal with
      | |- context [if ?c then _ else _] => destruct c
      end; eexists; (split; [reflexivity | exact G]).
Qed.

Lemma handle_input_keeps_gate ls k self key :
  ls <> [] -> gated ls k self -> activates k key = false ->
  exists s, handle_input key self = Ok (s, None) /\ gated ls k s.
Proof.
  intros Hne G Hact. pose proof G as (He & Hl & Hk). unfold handle_input.
  destruct (key =? curses.KEY_UP).
  { destruct (up_keeps_gate ls k self G) as (s & -> & Gs). now exists s. }
  destruct (key =? curses.KEY_DOWN).
  { destruct (down_keeps_gate ls k self Hne G) as (s & -> & Gs). now exists s. }
  destruct (key =? curses.KEY_LEFT).
  { destruct (left_keeps_gate ls k self G) as (s & -> & Gs). now exists s. }
  destruct (key =? curses.KEY_RIGHT).
  { destruct (right_keeps_gate ls k self Hne G) as (s & -> & Gs). now exists s. }
  destruct (key =? curses.KEY_BACKSPACE).
  { unfold _remove_char. rewrite He. now exists self. }
  destruct (key =? SPECIAL_KEYS.ESCAPE).
  { unfold _key_esc_callback. destruct (edit_key self) eqn:Ek.
    - eexists; split; [reflexivity|]. unfold gated. cbn.
      repeat split; congruence.
    - now exists self. }
  unfold activates in Hact.
  destruct (is_key_printable key); [|now exists self].
  cbn [andb] in Hact.
  unfold _add_char, _check_editable_flag. rewrite He, Hk, Hact. cbn.
  eexists; split; [reflexivity|]. now unfold gated.
Qed.

Lemma handle_inputs_keep_gate ls k keys :
  ls <> [] ->
  forall self, gated ls k self ->
    forallb (fun key => negb (activates k key)) keys = true ->
    exists s, handle_inputs keys self = Ok s /\ gated ls k s.
Proof.
  intros Hne. induction keys as [|key rest IH]; intros self G Hk.
  - now exists self.
  - cbn [forallb] in Hk. apply andb_true_iff in Hk. destruct Hk as (Hk1 & Hk2).
    apply negb_true_iff in Hk1.
    destruct (handle_input_keeps_gate ls k self key Hne G Hk1)
      as (s & Hs & Gs).
    cbn [handle_inputs]. rewrite Hs. cbn [bind fst].
    apply IH; trivial.
Qed.

(** C4, as the code has it: in a text box built with an activation key,
    Escape closes editing; from then on every sequence of keys that does
    not contain the activation key is handled without error, leaves editing
    closed and the lines untouched; and the activation key, when it comes,
    opens editing again without being inserted. *)
Theorem escape_closes_until_reactivated (self : t) (k : str) (keys : list Z) :
  edit_key self = Some k ->
  lines self <> [] ->
  forallb (fun key => negb (activates (Some k) key)) keys = true ->
  exists s1 s2,
    handle_input SPECIAL_KEYS.ESCAPE self = Ok (s1, None)
    /\ handle_inputs keys s1 = Ok s2
    /\ _editable s2 = false
    /\ lines s2 = lines self
    /\ forall key, activates (Some k) key = true ->
         exists s3, handle_input key s2 = Ok (s3, None)
                    /\ _editable s3 = true
                    /\ lines s3 = lines self.
Proof.
  intros Hk Hne Hkeys.
  exists (set_editable false self).
  assert (G1 : gated (lines self) (Some k) (set_editable false self))
    by (unfold gated; cbn; auto).
  destruct (handle_inputs_keep_gate (lines self) (Some k) keys Hne _ G1)
    as (s2 & Hs2 & He & Hl & Hk2); [exact Hkeys|].
  exists s2. split.
  { unfold handle_input. cbn [Z.eqb SPECIAL_KEYS.ESCAPE curses.KEY_UP
      curses.KEY_DOWN curses.KEY_LEFT curses.KEY_RIGHT curses.KEY_BACKSPACE
      Pos.eqb].
    unfold _key_esc_callback. now rewrite Hk. }
  repeat split; trivial.
  intros key Hact. unfold activates in Hact. apply andb_true_iff in Hact.
  destruct Hact as (Hp & Hs).
  assert (Hnc : (key =? curses.KEY_UP) = false
                /\ (key =? curses.KEY_DOWN) = false
                /\ (key =? curses.KEY_LEFT) = false
                /\ (key =? curses.KEY_RIGHT) = false
                /\ (key =? curses.KEY_BACKSPACE) = false
                /\ (key =? SPECIAL_KEYS.ESCAPE) = false).
  { unfold is_key_printable, accented in Hp. cbn [existsb] in Hp.
    repeat split; apply Z.eqb_neq; intros ->; discriminate Hp. }
  destruct Hnc as (H1 & H2 & H3 & H4 & H5 & H6).
  unfold handle_input. rewrite H1, H2, H3, H4, H5, H6, Hp.
  unfold _add_char, _check_editable_flag. rewrite He, Hk2.
  cbn [negb opt_str_eqb] in *. rewrite Hs. cbn.
  eexists. repeat split. exact Hl.
Qed.

Definition gated_box : result t :=
  init Fixture.screen 0 0 4 7 [] (Some (of_string "e")).

Lemma escape_closes_until_reactivated_witness :
  exists self s1 s2,
    gated_box = Ok self
    /\ handle_input SPECIAL_KEYS.ESCAPE self = Ok (s1, None)
    /\ handle_inputs (of_string "abc" ++ [curses.KEY_BACKSPACE]) s1 = Ok s2
    /\ _editable s2 = false
    /\ lines s2 = lines self.
Proof.
  eexists.
  destruct (escape_closes_until_reactivated
              (mk Fixture.screen 0 0 4 7 2 5 [[]]
                  (Some (of_string "e")) 1 1 0 false false
                  (curses.derwin 4 7))
              (of_string "e")
              (of_string "abc" ++ [curses.KEY_BACKSPACE]))
    as (s1 & s2 & H1 & H2 & H3 & H4 & _);
    [reflexivity | discriminate | reflexivity |].
  exists s1, s2. repeat split; eassumption.
Defined.

(** After Escape the box opens again: the activation key [e], Escape, [e]
    once more, and the key [x] is inserted. *)
Lemma escape_is_not_final :
  exists self s1 s2,
    gated_box = Ok self
    /\ handle_inputs (of_string "e" ++ [SPECIAL_KEYS.ESCAPE]) self = Ok s1
    /\ _editable s1 = false
    /\ get_text s1 = []
    /\ handle_inputs (of_string "ex") s1 = Ok s2
    /\ _editable s2 = true
    /\ get_text s2 = of_string "x".
Proof.
  do 3 eexists. repeat split; vm_compute; reflexivity.
Qed.

End EditGate.

(** ** Text box: what Backspace does to the cursor *)

Module BackspaceCursor.

Import TextBox.

(** C5 at its failing input: in a box of interior width 5, HELLO then
    Backspace leaves the cursor in column 7, the full width of the widget,
    outside [1, box_width]. *)
Lemma backspace_at_column_one_overshoots :
  exists self,
    (b <- Fixture.box 4 ;;
     handle_inputs (of_string "HELLO" ++ [curses.KEY_BACKSPACE]) b) = Ok self
    /\ box_width self = 5
    /\ cursor_x self = 7
    /\ ~ (1 <= cursor_x self <= box_width self).
Proof.
  eexists. split; [vm_compute; reflexivity|]. cbn. repeat split. lia.
Qed.

(** C6 at its failing input: with the window scrolled down by one line and
    the cursor in row 1, column 1, the cursor is not at the start of the
    document, and yet Backspace changes nothing. *)
Lemma backspace_ignored_when_scrolled :
  exists self,
    (b <- Fixture.box 4 ;;
     handle_inputs (of_string "HELLOWORLD" ++ [curses.KEY_UP]) b) = Ok self
    /\ _editable self = true
    /\ (cursor_y self, cursor_x self, first_line_idx self) = (1, 1, 1)
    /\ get_text self = of_string "HELLOWORLD"
    /\ handle_input curses.KEY_BACKSPACE self = Ok (self, None).
Proof.
  eexists. split; [vm_compute; reflexivity|]. repeat split.
Qed.

(** The cursor is on a cell of the interior. *)
Definition in_box (self : t) : Prop :=
  1 <= cursor_y self <= box_height self
  /\ 1 <= cursor_x self <= box_width self.

(** The geometry that no key changes. *)
Definition same_frame (a b : t) : Prop :=
  width b = width a /\ box_width b = box_width a
  /\ box_height b = box_height a /\ subwin b = subwin a.

Ltac tb_fields :=
  cbn [win y x height width box_height box_width lines edit_key cursor_x
       cursor_y first_line_idx _edited _editable subwin
       set_lines set_cursor_x set_cursor_y set_first_line_idx set_edited
       set_editable bind fst snd] in *.

(** Opens the tests and the calls that may raise, one after the other. *)
Ltac crack :=
  repeat (match goal with
          | |- context [if ?c then _ else _] => destruct c eqn:?
          | |- context [index ?l ?i] => destruct (index l i)
          | |- context [setitem ?l ?i ?v] => destruct (setitem l i v)
          | |- context [_split_text ?w ?t] => destruct (_split_text w t)
          | |- context [match ?k with Some _ => _ | None => _ end] =>
              destruct k
          end; tb_fields).

(** Were the attribute [width] within [1, box_width], the column that
    [_remove_char] gives the cursor would be a column of the interior, and
    every key would keep the cursor in the box: the other handlers respect
    the bounds. *)
Lemma handle_input_in_box key self p :
  1 <= width self <= box_width self ->
  in_box self ->
  handle_input key self = Ok p ->
  in_box (fst p) /\ same_frame self (fst p).
Proof.
  destruct self as [wn y0 x0 h wd bh W ls ek cx cy fli ed editable sw].
  unfold in_box, same_frame. tb_fields. intros Hwd (Hcy & Hcx).
  unfold handle_input, _key_up_callback, _key_down_callback,
    _key_left_callback, _key_right_callback, _remove_char, _key_esc_callback,
    _add_char, _check_editable_flag, _recompute_lines, _is_last_line.
  tb_fields. crack; intros H; try discriminate H; injection H as <-;
    tb_fields; tests_to_props; repeat split; lia.
Qed.

(** Whatever the keys did, the active [draw] that follows each of them in
    the focus loop clamps the cursor into the interior of the sub-window,
    which hides the overshoot from the screen. *)
Lemma move_clamps self :
  3 <= curses.maxy (subwin self) -> 3 <= curses.maxx (subwin self) ->
  1 <= cursor_y (_move self) <= curses.maxy (subwin self) - 2
  /\ 1 <= cursor_x (_move self) <= curses.maxx (subwin self) - 2.
Proof.
  intros Hy Hx. unfold _move. destruct self. tb_fields. lia.
Qed.

(** At the start of the document Backspace changes nothing. *)
Lemma backspace_at_document_start self :
  cursor_x self = 1 -> cursor_y self = 1 ->
  handle_input curses.KEY_BACKSPACE self = Ok (self, None).
Proof.
  intros Hx Hy. unfold handle_input.
  cbn [Z.eqb Pos.eqb curses.KEY_UP curses.KEY_DOWN curses.KEY_LEFT
       curses.KEY_RIGHT curses.KEY_BACKSPACE].
  unfold _remove_char. rewrite Hx, Hy. cbn [Z.eqb Pos.eqb andb].
  now destruct (negb (_editable self)).
Qed.

End BackspaceCursor.

(** ** String painter: where the bounded painter writes *)

Module PainterBounds.

Import string_painter.


(** The columns left for the text, as [add_str_no_overflows] computes them. *)
Definition available (window : curses.window) (col : Z)
    (alignment : AlignmentOptions) : Z :=
  match alignment with
  | MANUAL => curses.maxx window - 2 - col
  | _ => curses.maxx window - 2
  end.

(** Every call of the painter goes through, or none does: [addstr] is
    refused exactly under MANUAL alignment without an attribute. *)
Lemma add_str_align_cases window line col (s : str) alignment attr :
  (exists c, add_str_align window line col s alignment attr
             = Ok [mkPaint line c s attr])
  \/ (alignment = MANUAL /\ attr = None
      /\ add_str_align window line col s alignment attr = Raise TypeError).
Proof.
  unfold add_str_align, _add_str_left, _add_str_centered, _add_str_right.
  destruct alignment; try (left; eexists; reflexivity).
  destruct attr; [left; eexists; reflexivity | right; auto].
Qed.

Section Window.

Variable window : curses.window.
Variable col : Z.
Variable alignment : AlignmentOptions.
Variable attr : option Z.

Hypothesis wide : 2 <= curses.maxx window.
Hypothesis col_inside :
  alignment = MANUAL -> 0 <= col <= curses.maxx window - 2.

Lemma available_nonneg : 0 <= available window col alignment.
Proof.
  unfold available. destruct alignment; try lia.
  specialize (col_inside eq_refl). lia.
Qed.




End Window.



Definition small : curses.window := curses.mkWindow 5 10.



End PainterBounds.

(** ** Widget manager: how the focus loop returns *)

Module FocusLoop.

Import WidgetManager.














End FocusLoop.

(** ** Text box: a character typed and deleted at once *)

Module InsertDelete.

Import TextBox Reflow.

Lemma printable_is_no_callback key :
  is_key_printable key = true ->
  (key =? curses.KEY_UP) = false
  /\ (key =? curses.KEY_DOWN) = false
  /\ (key =? curses.KEY_LEFT) = false
  /\ (key =? curses.KEY_RIGHT) = false
  /\ (key =? curses.KEY_BACKSPACE) = false
  /\ (key =? SPECIAL_KEYS.ESCAPE) = false.
Proof.
  intros Hp. unfold is_key_printable, accented in Hp. cbn [existsb] in Hp.
  repeat split; apply Z.eqb_neq; intros ->; discriminate Hp.
Qed.

Section Lists.

Context {A : Type}.
Implicit Types l : list A.

Lemma firstn_firstn_le l (a b : nat) :
  (a <= b)%nat -> firstn a (firstn b l) = firstn a l.
Proof. intros H. rewrite firstn_firstn. now rewrite Nat.min_l. Qed.

Lemma skipn_firstn_rest l (a b : nat) :
  (a <= b)%nat -> skipn a (firstn b l) ++ skipn b l = skipn a l.
Proof.
  intros H. rewrite <- (firstn_skipn b l) at 3. rewrite skipn_app. f_equal.
  destruct (Nat.le_gt_cases b (length l)) as [Hb | Hb].
  - rewrite length_firstn, Nat.min_l by trivial.
    replace (a - b)%nat with 0%nat by lia. reflexivity.
  - rewrite (skipn_all2 l) by lia. now rewrite skipn_nil.
Qed.

End Lists.

(** Replacing piece [i] of a reflowed text by [v] leaves, once joined,
    the text before the piece, [v], and the text after the piece. *)
Lemma join_replace_chunk w n (text v : str) i :
  (length text <= n * w)%nat -> (i < n)%nat ->
  join (replace_nth (chunks w n text) i v)
  = firstn (i * w) text ++ v ++ skipn (S i * w) text.
Proof.
  intros Hcover Hi.
  rewrite replace_nth_split by (rewrite chunks_length; lia).
  unfold join. rewrite concat_app. cbn [concat].
  rewrite chunks_firstn by lia. fold (join (chunks w i text)).
  rewrite join_chunks. do 2 f_equal.
  apply (app_inv_head (firstn (S i * w) text)).
  rewrite firstn_skipn.
  rewrite <- (join_chunks w (S i) text).
  rewrite <- (chunks_firstn w n text (S i)) by lia.
  unfold join. rewrite <- concat_app, firstn_skipn.
  fold (join (chunks w n text)). rewrite join_chunks.
  now apply firstn_all2.
Qed.

(** The text with [c] put in at position [p], and with position [p] taken
    out. *)
Definition put_in (p : nat) (c : str) (text : str) : str :=
  firstn p text ++ c ++ skipn p text.

Definition take_out (p : nat) (text : str) : str :=
  firstn p text ++ skipn (S p) text.

Lemma take_out_put_in p (c : Z) text :
  (p <= length text)%nat -> take_out p (put_in p [c] text) = text.
Proof.
  intros Hp. unfold take_out, put_in.
  assert (Hl : length (firstn p text) = p)
    by (rewrite length_firstn; lia).
  rewrite firstn_app, Hl, Nat.sub_diag, firstn_O, app_nil_r.
  rewrite firstn_all2 by lia.
  rewrite skipn_app, Hl.
  rewrite (skipn_all2 (firstn p text)) by lia.
  replace (S p - p)%nat with 1%nat by lia. cbn [app skipn].
  apply firstn_skipn.
Qed.

Section Edit.

Variable W : Z.
Hypothesis W_pos : 0 < W.

Let w := Z.to_nat W.

(** What [_recompute_lines] yields. *)
Definition reflow (text : str) : list str := chunks w (n_lines W text) text.

Lemma reflow_covers text : (length text < n_lines W text * w)%nat.
Proof. now apply n_lines_covers. Qed.

Lemma reflow_line text (i : nat) :
  (i * w <= length text)%nat ->
  index (reflow text) (Z.of_nat i)
  = Ok (firstn w (skipn (i * w) text))
  /\ forall v,
       exists ls, setitem (reflow text) (Z.of_nat i) v = Ok ls
                  /\ join ls = firstn (i * w) text ++ v ++ skipn (S i * w) text.
Proof.
  intros Hi. pose proof (reflow_covers text) as Hc.
  assert (Hin : (i < n_lines W text)%nat) by nia.
  split.
  - apply index_nth. now apply chunks_nth.
  - intros v. eexists. split.
    + apply setitem_nth. unfold reflow. rewrite chunks_length. exact Hin.
    + apply join_replace_chunk; lia.
Qed.

(** Putting [c] in at column [k] of line [i] puts it in at position
    [i * w + k] of the text. *)
Lemma put_in_line text (i k : nat) (c : str) :
  (k <= w)%nat ->
  let line := firstn w (skipn (i * w) text) in
  firstn (i * w) text ++ (firstn k line ++ c ++ skipn k line)
    ++ skipn (S i * w) text
  = put_in (i * w + k) c text.
Proof.
  intros Hk line. unfold put_in, line.
  rewrite firstn_plus, firstn_firstn_le by trivial.
  rewrite <- !app_assoc. do 3 f_equal.
  replace (S i * w)%nat with (w + i * w)%nat by lia.
  rewrite <- skipn_skipn, skipn_firstn_rest by trivial.
  rewrite skipn_skipn. f_equal. lia.
Qed.

(** Taking column [k] out of line [i] takes position [i * w + k] out of the
    text. *)
Lemma take_out_line text (i k : nat) :
  (S k <= w)%nat ->
  let line := firstn w (skipn (i * w) text) in
  firstn (i * w) text ++ (firstn k line ++ skipn (S k) line)
    ++ skipn (S i * w) text
  = take_out (i * w + k) text.
Proof.
  intros Hk line. unfold take_out, line.
  rewrite firstn_plus, firstn_firstn_le by lia.
  rewrite <- !app_assoc. do 2 f_equal.
  replace (S i * w)%nat with (w + i * w)%nat by lia.
  rewrite <- skipn_skipn, skipn_firstn_rest by trivial.
  rewrite skipn_skipn. f_equal. lia.
Qed.

End Edit.

(** The fields of a text box, projected and updated. *)
Ltac fields :=
  cbn [win y x height width box_height box_width lines edit_key cursor_x
       cursor_y first_line_idx _edited _editable subwin
       set_lines set_cursor_x set_cursor_y set_first_line_idx set_edited
       set_editable bind fst snd negb andb get_text] in *.

(** A printable key typed with the cursor on the text, left of the last
    column: the character goes in at the cursor and the cursor moves one
    column right. *)
Lemma insert_inside (self : t) (key : Z) (text : str) (i k : nat) :
  _editable self = true ->
  0 < box_width self ->
  lines self = reflow (box_width self) text ->
  is_key_printable key = true ->
  first_line_idx self + cursor_y self - 1 = Z.of_nat i ->
  cursor_x self - 1 = Z.of_nat k ->
  cursor_x self < box_width self ->
  (i * Z.to_nat (box_width self) + k <= length text)%nat ->
  handle_input key self
  = Ok (set_edited true
          (set_lines
             (reflow (box_width self)
                (put_in (i * Z.to_nat (box_width self) + k) (chr key) text))
             (set_cursor_x (cursor_x self + 1) self)),
        None).
Proof.
  destruct self as [wn y0 x0 h wd bh W ls ek cx cy fli ed editable sw].
  fields. intros -> HW -> Hp Hi Hk Hcx Hin.
  destruct (printable_is_no_callback key Hp) as (H1 & H2 & H3 & H4 & H5 & H6).
  unfold handle_input. rewrite H1, H2, H3, H4, H5, H6, Hp.
  unfold _add_char, _check_editable_flag. fields. rewrite Hi, Hk.
  destruct (reflow_line W HW text i) as (Hidx & Hset); [lia|].
  rewrite Hidx. fields.
  rewrite slice_upto, slice_from, Nat2Z.id by lia.
  match goal with
  | |- context [setitem _ _ ?v] => destruct (Hset v) as (ls1 & -> & Hjoin)
  end.
  fields. rewrite (proj2 (Z.ltb_lt cx W) Hcx).
  unfold _recompute_lines. fields. rewrite Hjoin.
  rewrite put_in_line by lia.
  rewrite split_text_chunks by trivial. reflexivity.
Qed.

(** Backspace with the cursor right of column 1 and on the text: the
    character before the cursor goes and the cursor moves one column
    left. *)
Lemma delete_inside (self : t) (text : str) (i k : nat) :
  _editable self = true ->
  0 < box_width self ->
  lines self = reflow (box_width self) text ->
  first_line_idx self + cursor_y self - 1 = Z.of_nat i ->
  cursor_x self - 2 = Z.of_nat k ->
  cursor_x self - 1 <= box_width self ->
  (i * Z.to_nat (box_width self) <= length text)%nat ->
  handle_input curses.KEY_BACKSPACE self
  = Ok (set_edited true
          (set_lines
             (reflow (box_width self)
                (take_out (i * Z.to_nat (box_width self) + k) text))
             (set_cursor_x (cursor_x self - 1) self)),
        None).
Proof.
  destruct self as [wn y0 x0 h wd bh W ls ek cx cy fli ed editable sw].
  fields. intros -> HW -> Hi Hk Hcx Hin.
  unfold handle_input.
  cbn [Z.eqb Pos.eqb curses.KEY_UP curses.KEY_DOWN curses.KEY_LEFT
       curses.KEY_RIGHT curses.KEY_BACKSPACE].
  unfold _remove_char. fields.
  assert (E1 : (cx =? 1) = false) by (apply Z.eqb_neq; lia).
  assert (E2 : (cx >? 1) = true) by (rewrite Z.gtb_ltb; apply Z.ltb_lt; lia).
  rewrite E1, E2. fields. rewrite Hi.
  destruct (reflow_line W HW text i) as (Hidx & Hset); [lia|].
  rewrite Hidx. fields.
  rewrite slice_upto, slice_from by lia. rewrite Hk, Nat2Z.id.
  replace (Z.to_nat (cx - 1)) with (S k) by lia.
  match goal with
  | |- context [setitem _ _ ?v] => destruct (Hset v) as (ls1 & -> & Hjoin)
  end.
  fields. unfold _recompute_lines. fields. rewrite Hjoin.
  rewrite take_out_line by lia.
  rewrite split_text_chunks by trivial. reflexivity.
Qed.

(** The lines are those of the joined text, reflowed: what [__init__] and
    every edit leave behind. *)
Definition reflowed (self : t) : Prop :=
  0 < box_width self
  /\ _split_text (box_width self) (get_text self) = Ok (lines self).

Lemma split_text_reflowed W text ls :
  0 < W -> _split_text W text = Ok ls -> _split_text W (join ls) = Ok ls.
Proof.
  intros HW H. now rewrite (join_split_text W text ls HW H).
Qed.

Lemma init_reflowed wn y0 x0 h wd text ek self :
  0 < wd - 2 -> init wn y0 x0 h wd text ek = Ok self -> reflowed self.
Proof.
  intros HW. unfold init.
  destruct (_split_text (wd - 2) text) as [ls | e] eqn:E; cbn [bind];
    [|discriminate].
  intros H. injection H as <-. split; [exact HW|].
  unfold get_text. fields. now apply (split_text_reflowed _ text).
Qed.

Lemma recompute_reflowed self s :
  0 < box_width self -> _recompute_lines self = Ok s ->
  reflowed s /\ box_width s = box_width self.
Proof.
  intros HW. unfold _recompute_lines.
  destruct (_split_text (box_width self) (join (lines self))) as [ls | e] eqn:E;
    cbn [bind]; [|discriminate].
  intros H. injection H as <-. destruct self. fields.
  repeat split; trivial. now apply (split_text_reflowed _ _ _ HW E).
Qed.

(** Every handler keeps the lines reflowed: the cursor keys do not touch
    them, the edits end in [_recompute_lines]. *)
Lemma handle_input_reflowed key self p :
  reflowed self -> handle_input key self = Ok p -> reflowed (fst p).
Proof.
  intros R. pose proof R as (HW & Hl). unfold handle_input.
  assert (Hsame : forall s, lines s = lines self ->
                            box_width s = box_width self -> reflowed s).
  { intros s E1 E2. unfold reflowed, get_text. now rewrite E1, E2. }
  repeat match goal with
    | |- context [if key =? ?c then _ else _] => destruct (key =? c)
    end.
  - unfold _key_up_callback. cbn [bind]. intros H. injection H as <-.
    cbn [fst]. apply Hsame;
      destruct ((cursor_y self =? 1) && (first_line_idx self >? 0));
      reflexivity.
  - unfold _key_down_callback.
    repeat match goal with
      | |- context [if ?c then _ else _] => destruct c; cbn [bind]
      | |- context [index ?l ?i] => destruct (index l i); cbn [bind]
      end; intros H; try discriminate; injection H as <-; cbn [fst];
      apply Hsame; reflexivity.
  - unfold _key_left_callback.
    repeat match goal with
      | |- context [if ?c then _ else _] => destruct c; cbn [bind]
      end; intros H; injection H as <-; cbn [fst]; apply Hsame; reflexivity.
  - unfold _key_right_callback.
    repeat match goal with
      | |- context [if ?c then _ else _] => destruct c; cbn [bind]
      | |- context [index ?l ?i] => destruct (index l i); cbn [bind]
      end; intros H; try discriminate; injection H as <-; cbn [fst];
      apply Hsame; reflexivity.
  - unfold _remove_char.
    destruct (negb (_editable self));
      [cbn [bind]; intros H; injection H as <-; exact R|].
    destruct ((cursor_x self =? 1) && (cursor_y self =? 1));
      [cbn [bind]; intros H; injection H as <-; exact R|].
    match goal with
    | |- bind (bind ?c _) _ = _ -> _ => destruct c as [s1 | e] eqn:E1
    end; cbn [bind]; [|discriminate].
    assert (Hw1 : box_width s1 = box_width self).
    { revert E1.
      repeat match goal with
        | |- context [if ?c then _ else _] => destruct c; cbn [bind]
        | |- context [index ?l ?i] => destruct (index l i); cbn [bind]
        | |- context [setitem ?l ?i ?v] => destruct (setitem l i v); cbn [bind]
        end; intros H; try discriminate; injection H as <-; reflexivity. }
    destruct (_recompute_lines s1) as [s2 | e] eqn:E2; cbn [bind];
      [|discriminate].
    intros H. injection H as <-. cbn [fst].
    destruct (recompute_reflowed s1 s2) as ((HW2 & Hl2) & _);
      [now rewrite Hw1 | exact E2 |].
    destruct s2. split; fields; assumption.
  - unfold _key_esc_callback.
    destruct (edit_key self); cbn [bind]; intros H; injection H as <-;
      cbn [fst]; [apply Hsame; reflexivity | exact R].
  - destruct (is_key_printable key);
      [|cbn [bind]; intros H; injection H as <-; exact R].
    unfold _add_char, _check_editable_flag.
    destruct (negb (_editable self)); cbn [negb bind];
      [intros H; injection H as <-; cbn [fst]; apply Hsame; reflexivity|].
    match goal with
    | |- context [index ?l ?i] => destruct (index l i); cbn [bind]
    end; [|discriminate].
    match goal with
    | |- context [setitem ?l ?i ?v] => destruct (setitem l i v); cbn [bind]
    end; [|discriminate].
    match goal with
    | |- context [_recompute_lines ?s] =>
        pose proof (recompute_reflowed s) as Hr;
        destruct (_recompute_lines s) as [s2 | e]; cbn [bind]
    end; [|discriminate].
    intros H. injection H as <-. cbn [fst].
    destruct (Hr s2) as ((HW2 & Hl2) & _); [|reflexivity|].
    { repeat match goal with
        | |- context [if ?c then _ else _] => destruct c
        end; exact HW. }
    destruct s2. split; fields; assumption.
Qed.

Lemma handle_inputs_reflowed keys :
  forall self s, reflowed self -> handle_inputs keys self = Ok s -> reflowed s.
Proof.
  induction keys as [|key rest IH]; intros self s R; cbn [handle_inputs].
  - intros H. now injection H as <-.
  - destruct (handle_input key self) as [p | e] eqn:E; cbn [bind];
      [|discriminate].
    apply IH. now apply (handle_input_reflowed key self).
Qed.

(** C3, as the code has it: in an editable text box whose lines are
    reflowed (as they are after construction and after every key), with the
    cursor at a position of the text, its end included, and left of the
    last column, a printable key followed at once by Backspace is handled
    without error, the key makes the content one character longer, and
    Backspace restores the content, the lines, the cursor row and column
    and the scroll offset: the box is as before, its edited flag raised. *)
Theorem insert_then_backspace_restores (self : t) (key : Z) :
  reflowed self ->
  _editable self = true ->
  is_key_printable key = true ->
  0 <= first_line_idx self ->
  1 <= cursor_y self ->
  1 <= cursor_x self < box_width self ->
  (first_line_idx self + cursor_y self - 1) * box_width self
    + (cursor_x self - 1) <= len (get_text self) ->
  exists s1 s2,
    handle_input key self = Ok (s1, None)
    /\ handle_input curses.KEY_BACKSPACE s1 = Ok (s2, None)
    /\ len (get_text s1) = len (get_text self) + 1
    /\ get_text s2 = get_text self
    /\ cursor_x s2 = cursor_x self
    /\ cursor_y s2 = cursor_y self
    /\ first_line_idx s2 = first_line_idx self
    /\ s2 = set_edited true self.
Proof.
  destruct self as [wn y0 x0 h wd bh W ls ek cx cy fli ed editable sw].
  unfold reflowed, get_text. fields.
  intros (HW & Hsplit) -> Hp Hfli Hcy Hcx Hpos.
  set (self := mk wn y0 x0 h wd bh W ls ek cx cy fli ed true sw).
  set (i := Z.to_nat (fli + cy - 1)).
  set (k := Z.to_nat (cx - 1)).
  set (text := join ls) in *.
  assert (Hl : ls = reflow W text).
  { rewrite split_text_chunks in Hsplit by trivial. now injection Hsplit. }
  assert (Hi : fli + cy - 1 = Z.of_nat i) by (unfold i; lia).
  assert (Hk : cx - 1 = Z.of_nat k) by (unfold k; lia).
  assert (Hin : (i * Z.to_nat W + k <= length text)%nat).
  { apply Nat2Z.inj_le. rewrite Nat2Z.inj_add, Nat2Z.inj_mul.
    rewrite Z2Nat.id by lia. rewrite <- Hi, <- Hk. exact Hpos. }
  pose proof (insert_inside self key text i k eq_refl HW Hl Hp Hi Hk
                (proj2 Hcx) Hin) as H1.
  unfold self in H1 at 2 3 4 5. fields.
  set (text1 := put_in (i * Z.to_nat W + k) (chr key) text) in *.
  match type of H1 with _ = Ok (?s, None) => set (s1 := s) in * end.
  assert (Hlen1 : length text1 = S (length text)).
  { unfold text1, put_in, chr.
    rewrite !length_app, length_firstn, length_skipn. cbn [length]. lia. }
  assert (Hjoin1 : join (reflow W text1) = text1).
  { unfold reflow. rewrite join_chunks. apply firstn_all2.
    pose proof (n_lines_covers W text1 HW). lia. }
  assert (Hback : take_out (i * Z.to_nat W + k) text1 = text)
    by (apply take_out_put_in; exact Hin).
  assert (H2 : handle_input curses.KEY_BACKSPACE s1
               = Ok (set_edited true self, None)).
  { rewrite (delete_inside s1 text1 i k); try reflexivity; unfold s1; fields;
      trivial; try lia.
    rewrite Hback, <- Hl. unfold self, set_edited. fields.
    replace (cx + 1 - 1) with cx by lia. reflexivity. }
  exists s1, (set_edited true self).
  split; [exact H1|]. split; [exact H2|].
  unfold s1, self. fields.
  rewrite Hjoin1. unfold len. rewrite Hlen1.
  repeat split; lia.
Qed.

Lemma insert_then_backspace_restores_witness :
  exists self s1 s2,
    (b <- Fixture.box 4 ;; handle_inputs (of_string "HELLOW") b)
    = Ok self
    /\ (cursor_y self, cursor_x self) = (2, 2)
    /\ handle_input 79 self = Ok (s1, None)
    /\ handle_input curses.KEY_BACKSPACE s1 = Ok (s2, None)
    /\ get_text s2 = get_text self
    /\ s2 = set_edited true self.
Proof.
  eexists.
  match goal with
  | |- exists s1 s2, ?r = Ok ?self /\ _ =>
      let v := eval vm_compute in r in
      match v with
      | Ok ?b =>
          destruct (insert_then_backspace_restores b 79)
            as (s1 & s2 & H1 & H2 & _ & H4 & _ & _ & _ & H8)
      end
  end.
  - split; [cbn; lia | vm_compute; reflexivity].
  - reflexivity.
  - reflexivity.
  - cbn; lia.
  - cbn; lia.
  - cbn; lia.
  - vm_compute. discriminate.
  - exists s1, s2. split; [vm_compute; reflexivity|]. split; [reflexivity|].
    repeat split; assumption.
Defined.

(** Typed in the last column of the last visible row, the character makes
    the window scroll; Backspace then takes the character out again but
    moves the cursor up a row and does not scroll back: the cursor that was
    in row 2, column 5 is left in row 1 (column 7, or 5 once [_move] has
    clamped it), with the scroll offset still advanced. *)
Lemma insert_then_backspace_moves_cursor :
  exists self s2,
    (b <- Fixture.box 4 ;; handle_inputs (of_string "HELLOWORL") b)
    = Ok self
    /\ _editable self = true
    /\ handle_inputs [68; curses.KEY_BACKSPACE] self = Ok s2
    /\ get_text s2 = get_text self
    /\ (cursor_y self, cursor_x self, first_line_idx self) = (2, 5, 0)
    /\ (cursor_y s2, cursor_x s2, first_line_idx s2) = (1, 7, 1)
    /\ (cursor_y (_move s2), cursor_x (_move s2)) = (1, 5)
    /\ (cursor_y s2, cursor_x s2) <> (cursor_y self, cursor_x self).
Proof.
  do 2 eexists. split; [vm_compute; reflexivity|].
  split; [reflexivity|]. split; [vm_compute; reflexivity|].
  repeat split. discriminate.
Qed.

End InsertDelete.

(** * Further properties of the code *)

(** ** String painter: where the layout functions put the strings *)

Module Layout.

Import string_painter.

Lemma fold_sum_shift (strings : list str) (acc : Z) :
  fold_left (fun a s => a + len s) strings acc
  = acc + fold_left (fun a s => a + len s) strings 0.
Proof.
  revert acc. induction strings as [|s rest IH]; intros acc; cbn [fold_left].
  - lia.
  - rewrite (IH (acc + len s)), (IH (0 + len s)). lia.
Qed.

Lemma sum_len_cons (s : str) (rest : list str) :
  sum_len (s :: rest) = len s + sum_len rest.
Proof. unfold sum_len. cbn [fold_left]. rewrite fold_sum_shift. lia. Qed.

Lemma sum_len_app (a b : list str) : sum_len (a ++ b) = sum_len a + sum_len b.
Proof.
  induction a as [|s a IH]; [reflexivity|].
  cbn [app]. rewrite !sum_len_cons, IH. lia.
Qed.

Lemma sum_len_nonneg (strings : list str) : 0 <= sum_len strings.
Proof.
  induction strings as [|s rest IH]; [unfold sum_len; cbn; lia|].
  rewrite sum_len_cons. pose proof (len_nonneg s). lia.
Qed.

Lemma len_cons {A} (a : A) (l : list A) : len (a :: l) = 1 + len l.
Proof. unfold len. cbn [length]. lia. Qed.

Lemma place_row_length line x0 gap strings :
  length (place_row line x0 gap strings) = length strings.
Proof.
  revert x0. induction strings as [|s rest IH]; intros x0; cbn; auto.
Qed.

Lemma place_column_length col_of line i strings :
  length (place_column col_of line i strings) = length strings.
Proof.
  revert i. induction strings as [|s rest IH]; intros i; cbn; auto.
Qed.

(** In a row, a string starts after the strings before it and one gap for
    each of them. *)
Lemma place_row_nth line gap (pre : list str) (s : str) (post : list str) :
  forall x0,
    nth_error (place_row line x0 gap (pre ++ s :: post)) (length pre)
    = Some (line, x0 + sum_len pre + gap * len pre).
Proof.
  induction pre as [|p pre IH]; intros x0; cbn [app place_row length nth_error].
  - f_equal. f_equal. unfold sum_len, len. cbn. lia.
  - rewrite IH, sum_len_cons, len_cons. f_equal. f_equal. lia.
Qed.

(** In a column, the strings are on consecutive rows, each at the column
    its own length gives it. *)
Lemma place_column_nth col_of line (pre : list str) (s : str) (post : list str) :
  forall i,
    nth_error (place_column col_of line i (pre ++ s :: post)) (length pre)
    = Some (line + (i + len pre), col_of s).
Proof.
  induction pre as [|p pre IH]; intros i;
    cbn [app place_column length nth_error].
  - f_equal. f_equal. unfold len. cbn. lia.
  - rewrite IH, len_cons. f_equal. f_equal. lia.
Qed.

(** The column of the first string and the gap between strings, for
    strings laid out in a row. *)
Definition row_origin (window : curses.window) (strings : list str)
    (alignment : AlignmentOptions) : Z * Z :=
  match alignment with
  | RIGHT => (curses.maxx window - sum_len strings - (len strings - 1), 1)
  | CENTER =>
      let gap := (curses.maxx window - sum_len strings) / (len strings + 1) in
      (gap, gap)
  | _ => (0, 1)
  end.

(** The column of a string laid out in a column of strings. *)
Definition column_of (window : curses.window) (alignment : AlignmentOptions)
    (s : str) : Z :=
  match alignment with
  | RIGHT => curses.maxx window - len s
  | CENTER => (curses.maxx window - len s) / 2
  | _ => 0
  end.

(** X1: for LEFT, RIGHT and CENTER alignment [compute_strs_h_aligned] gives
    one position per string.  In HORIZONTAL orientation all are on the
    start line, and a string starts at the origin of the row plus the
    lengths of the strings before it and one gap for each of them (origin
    0 and gap 1 for LEFT; gap 1 and the row ending at the window width for
    RIGHT; origin and gap both (width - total length) // (count + 1) for
    CENTER).  In VERTICAL orientation the strings are on consecutive rows
    from the start line, at column 0 (LEFT), width - length (RIGHT) or
    (width - length) // 2 (CENTER). *)
Theorem aligned_positions (window : curses.window) (start_line : Z)
    (pre : list str) (s : str) (post : list str)
    (orientation : OrientationOptions) (alignment : AlignmentOptions) :
  alignment <> MANUAL ->
  exists ps,
    compute_strs_h_aligned window start_line (pre ++ s :: post)
      orientation alignment = Some ps
    /\ length ps = length (pre ++ s :: post)
    /\ nth_error ps (length pre)
       = Some (match orientation with
               | HORIZONTAL =>
                   let (origin, gap) :=
                     row_origin window (pre ++ s :: post) alignment in
                   (start_line, origin + sum_len pre + gap * len pre)
               | VERTICAL =>
                   (start_line + len pre, column_of window alignment s)
               end).
Proof.
  intros Hm. unfold compute_strs_h_aligned, compute_strs_h_left,
    compute_strs_h_right, compute_strs_h_centered, row_origin, column_of.
  destruct alignment; try congruence; destruct orientation;
    eexists; (split; [reflexivity|]);
    rewrite ?place_row_length, ?place_column_length;
    (split; [reflexivity|]);
    rewrite ?place_row_nth, ?place_column_nth;
    apply f_equal; apply f_equal2; lia.
Qed.

Lemma aligned_positions_witness :
  exists ps,
    compute_strs_h_aligned (curses.mkWindow 5 20) 2
      ([of_string "ab"] ++ of_string "cde" :: [of_string "f"])
      HORIZONTAL RIGHT = Some ps
    /\ length ps = 3%nat
    /\ nth_error ps 1 = Some (2, 12 + 2 + 1 * 1).
Proof.
  apply (aligned_positions (curses.mkWindow 5 20) 2 [of_string "ab"]
           (of_string "cde") [of_string "f"] HORIZONTAL RIGHT).
  discriminate.
Defined.

(** X2: strings packed to the right of a row end flush with the window:
    the last one stops exactly at the window width, so its last character
    is in the last column. *)
Theorem right_row_ends_at_width (window : curses.window) (start_line : Z)
    (pre : list str) (s : str) :
  nth_error (compute_strs_h_right window start_line (pre ++ [s]) HORIZONTAL)
    (length pre)
  = Some (start_line, curses.maxx window - len s).
Proof.
  unfold compute_strs_h_right. rewrite place_row_nth.
  rewrite sum_len_app, sum_len_cons, len_app, len_cons.
  change (sum_len []) with 0. change (len (@nil str)) with 0.
  apply f_equal, f_equal2; lia.
Qed.

(** X3: strings centred in a row that is wide enough for them keep the
    gap free on both sides: each starts at or after the gap and the last
    one ends at least a gap before the window width; the gap is not
    negative. *)
Theorem centered_row_fits (window : curses.window) (start_line : Z)
    (pre : list str) (s : str) (post : list str) :
  sum_len (pre ++ s :: post) <= curses.maxx window ->
  let strings := pre ++ s :: post in
  let gap := (curses.maxx window - sum_len strings) / (len strings + 1) in
  exists col,
    nth_error (compute_strs_h_centered window start_line strings HORIZONTAL)
      (length pre) = Some (start_line, col)
    /\ 0 <= gap <= col
    /\ col + len s <= curses.maxx window - gap.
Proof.
  intros Hfit strings gap. unfold compute_strs_h_centered. fold strings gap.
  unfold strings at 1. rewrite place_row_nth.
  eexists. split; [reflexivity|].
  assert (Hn : 0 < len strings + 1) by (pose proof (len_nonneg strings); lia).
  assert (Hg : 0 <= gap) by (apply Z.div_pos; [fold strings in Hfit|]; lia).
  assert (Hmul : gap * (len strings + 1) <= curses.maxx window - sum_len strings).
  { rewrite Z.mul_comm. apply Z.mul_div_le. exact Hn. }
  unfold strings in Hmul at 1 2.
  rewrite sum_len_app, sum_len_cons in Hmul.
  rewrite len_app, len_cons in Hmul.
  pose proof (sum_len_nonneg pre). pose proof (sum_len_nonneg post).
  pose proof (len_nonneg pre). pose proof (len_nonneg post).
  pose proof (len_nonneg s).
  split; [nia|]. nia.
Qed.

Lemma centered_row_fits_witness :
  exists col,
    nth_error
      (compute_strs_h_centered (curses.mkWindow 5 20) 2
         ([of_string "ab"] ++ of_string "cde" :: [of_string "f"]) HORIZONTAL)
      1 = Some (2, col)
    /\ 0 <= 3 <= col
    /\ col + 3 <= 20 - 3.
Proof.
  apply (centered_row_fits (curses.mkWindow 5 20) 2 [of_string "ab"]
           (of_string "cde") [of_string "f"]).
  vm_compute. discriminate.
Defined.

End Layout.

(** ** String painter: what the bounded painter writes *)

Module PainterText.

Import string_painter.

(** The texts written, one after the other. *)
Definition written (ps : list paint) : str := concat (map p_text ps).

Section Loop.

Variable window : curses.window.
Variable col : Z.
Variable alignment : AlignmentOptions.
Variable attr : option Z.
Variable a : Z.
Hypothesis a_nonneg : 0 <= a.
Hypothesis attr_given : alignment = MANUAL -> attr <> None.

Lemma add_str_align_one line (s : str) :
  exists c, add_str_align window line col s alignment attr
            = Ok [mkPaint line c s attr].
Proof.
  destruct (PainterBounds.add_str_align_cases window line col s alignment attr)
    as [H | (Ha & Hn & _)]; [exact H | now elim (attr_given Ha)].
Qed.

Lemma len_firstn_le (s : str) : len (slice s None (Some a)) <= a.
Proof.
  rewrite slice_upto by trivial. unfold len. rewrite length_firstn. lia.
Qed.

(** The loop writes consecutive pieces of what the first call left, on
    the rows that follow, at most one per extra line. *)
Lemma overflow_loop_segments (n : nat) :
  forall line (s : str),
    exists r,
      overflow_loop n window line col s a alignment attr = Ok r
      /\ (exists rest, slice s (Some a) None = written (snd r) ++ rest)
      /\ (forall k p, nth_error (snd r) k = Some p ->
                      p_line p = line + 1 + Z.of_nat k)
      /\ fst r = line + len (snd r)
      /\ (length (snd r) <= n)%nat
      /\ Forall (fun p => len (p_text p) <= a) (snd r).
Proof.
  assert (Hstop : forall (m : nat) line (s : str),
             exists r,
               Ok (line, @nil paint) = Ok r
               /\ (exists rest, slice s (Some a) None = written (snd r) ++ rest)
               /\ (forall k p, nth_error (snd r) k = Some p ->
                               p_line p = line + 1 + Z.of_nat k)
               /\ fst r = line + len (snd r)
               /\ (length (snd r) <= m)%nat
               /\ Forall (fun p => len (p_text p) <= a) (snd r)).
  { intros m line s. eexists. split; [reflexivity|]. cbn [fst snd].
    split; [now exists (slice s (Some a) None)|].
    split; [intros [|k] p; discriminate|].
    split; [unfold len; cbn [length]; lia|].
    split; [cbn [length]; lia | constructor]. }
  induction n as [|n IH]; intros line s; cbn [overflow_loop].
  - apply Hstop.
  - destruct (len s >? a); [|apply Hstop].
    destruct (line + 1 >=? curses.maxy window - Z.of_nat (S n));
      [apply Hstop|].
    destruct (add_str_align_one (line + 1)
                (slice (slice s (Some a) None) None (Some a))) as (c & ->).
    cbn [bind].
    destruct (IH (line + 1) (slice s (Some a) None))
      as ([last after] & -> & (rest & Hrest) & Hrows & Hlast & Hcount & Hlens).
    cbn [bind fst snd] in *.
    eexists. split; [reflexivity|]. cbn [fst snd app].
    split; [|split; [|split; [|split]]].
    + exists rest. unfold written in *. cbn [map concat p_text].
      rewrite <- app_assoc, <- Hrest.
      rewrite slice_upto, (slice_from (slice s (Some a) None)) by trivial.
      symmetry. apply firstn_skipn.
    + intros [|k] p; cbn [nth_error].
      * intros H. injection H as <-. cbn [p_line Z.of_nat]. lia.
      * intros H. rewrite (Hrows k p H). lia.
    + rewrite Hlast. unfold len. cbn [length]. lia.
    + cbn [length]. lia.
    + constructor; [cbn [p_text]; apply len_firstn_le | exact Hlens].
Qed.

(** When the last extra line would not fit under the start line, the
    loop stops before its first turn. *)
Lemma overflow_loop_no_room (n : nat) line (s : str) :
  curses.maxy window <= line + 1 + Z.of_nat n ->
  overflow_loop n window line col s a alignment attr = Ok (line, []).
Proof.
  intros Hroom. destruct n as [|n]; cbn [overflow_loop]; [reflexivity|].
  destruct (len s >? a); [|reflexivity].
  rewrite Z.geb_leb, (proj2 (Z.leb_le _ _)); [reflexivity | lia].
Qed.

(** When all the extra lines fit, the loop writes as much of what the
    first call left as the extra lines hold. *)
Lemma overflow_loop_room (n : nat) :
  forall line (s : str),
    line + 1 + Z.of_nat n < curses.maxy window ->
    exists r,
      overflow_loop n window line col s a alignment attr = Ok r
      /\ written (snd r) = firstn (n * Z.to_nat a) (slice s (Some a) None).
Proof.
  induction n as [|n IH]; intros line s Hroom; cbn [overflow_loop].
  - eexists. split; reflexivity.
  - destruct (len s >? a) eqn:E.
    + rewrite Z.geb_leb, (proj2 (Z.leb_gt _ _)) by lia.
      destruct (add_str_align_one (line + 1)
                  (slice (slice s (Some a) None) None (Some a))) as (c & ->).
      cbn [bind].
      destruct (IH (line + 1) (slice s (Some a) None))
        as ([last after] & -> & Hw); [lia|].
      cbn [bind fst snd] in *. eexists. split; [reflexivity|].
      unfold written in *. cbn [snd app map concat p_text].
      rewrite Hw.
      rewrite slice_upto, (slice_from (slice s (Some a) None)) by trivial.
      cbn [Nat.mul]. now rewrite firstn_plus.
    + eexists. split; [reflexivity|]. cbn [snd].
      rewrite Z.gtb_ltb in E. apply Z.ltb_ge in E.
      rewrite slice_from by trivial.
      rewrite skipn_all2 by (unfold len in E; lia).
      now rewrite firstn_nil.
Qed.

End Loop.

(** X4: started on a row of a window at least 2 columns wide (under
    MANUAL alignment at a column between 0 and the width less 2, and with
    an attribute), the bounded painter returns, having written
    consecutive pieces of the string, each no longer than the available
    columns, so that what it has written is a beginning of the string;
    the pieces are on consecutive rows from the start line; there is at
    least one and at most one more than the extra lines; and the line
    returned is the row after the last one written. *)
Theorem painter_writes_a_prefix
    (window : curses.window) (line col : Z) (string : str) (extra_lines : Z)
    (alignment : AlignmentOptions) (attr : option Z) :
  2 <= curses.maxx window ->
  0 <= line < curses.maxy window ->
  (alignment = MANUAL -> 0 <= col <= curses.maxx window - 2) ->
  (alignment = MANUAL -> attr <> None) ->
  exists r,
    add_str_no_overflows window line col string extra_lines alignment attr
    = Ok r
    /\ (exists rest, string = written (snd r) ++ rest)
    /\ (forall k p, nth_error (snd r) k = Some p ->
                    p_line p = line + Z.of_nat k)
    /\ fst r = line + len (snd r)
    /\ 1 <= len (snd r) <= 1 + Z.max 0 extra_lines
    /\ Forall (fun p => len (p_text p)
                        <= PainterBounds.available window col alignment)
         (snd r).
Proof.
  intros Hw Hline Hcol Hattr. unfold add_str_no_overflows.
  fold (PainterBounds.available window col alignment).
  assert (Ha : 0 <= PainterBounds.available window col alignment)
    by (eapply PainterBounds.available_nonneg; eauto).
  set (a := PainterBounds.available window col alignment) in *.
  destruct (add_str_align_one window col alignment attr Hattr line
              (slice string None (Some a))) as (c & ->).
  cbn [bind].
  destruct (overflow_loop_segments window col alignment attr a Ha Hattr
              (Z.to_nat extra_lines) line string)
    as ([last after] & -> & (rest & Hrest) & Hrows & Hlast & Hcount & Hlens).
  cbn [bind fst snd] in *.
  eexists. split; [reflexivity|]. cbn [fst snd app].
  split; [|split; [|split; [|split]]].
  - exists rest. unfold written in *. cbn [map concat p_text].
    rewrite <- app_assoc, <- Hrest.
    rewrite slice_upto, slice_from by trivial.
    symmetry. apply firstn_skipn.
  - intros [|k] p; cbn [nth_error].
    + intros H. injection H as <-. cbn [p_line Z.of_nat]. lia.
    + intros H. rewrite (Hrows k p H). lia.
  - rewrite Hlast. unfold len. cbn [length]. lia.
  - unfold len. cbn [length]. lia.
  - constructor; [cbn [p_text]; now apply len_firstn_le | exact Hlens].
Qed.

Lemma painter_writes_a_prefix_witness :
  exists r,
    add_str_no_overflows PainterBounds.small 1 3
      (of_string "a long line of text") 2 MANUAL (Some 0) = Ok r
    /\ (exists rest, of_string "a long line of text" = written (snd r) ++ rest)
    /\ (forall k p, nth_error (snd r) k = Some p -> p_line p = 1 + Z.of_nat k)
    /\ fst r = 1 + len (snd r)
    /\ 1 <= len (snd r) <= 1 + Z.max 0 2
    /\ Forall (fun p => len (p_text p) <= 5) (snd r).
Proof.
  apply (painter_writes_a_prefix PainterBounds.small 1 3
           (of_string "a long line of text") 2 MANUAL (Some 0)).
  - cbn. lia.
  - cbn. lia.
  - intros _. cbn. lia.
  - discriminate.
Defined.

(** X5: the extra lines are all or nothing.  Started inside the window as
    for X4, the painter returns; if the start line is so low that not all
    the extra lines would fit under it, no extra line is used: the first
    piece alone is written, even when the string is longer and some rows
    below are free.  If they all fit, the painter writes as much of the
    string as the first line and the extra lines hold. *)
Theorem painter_extra_lines_all_or_nothing
    (window : curses.window) (line col : Z) (string : str) (extra_lines : Z)
    (alignment : AlignmentOptions) (attr : option Z) :
  2 <= curses.maxx window ->
  0 <= line < curses.maxy window ->
  (alignment = MANUAL -> 0 <= col <= curses.maxx window - 2) ->
  (alignment = MANUAL -> attr <> None) ->
  0 <= extra_lines ->
  let a := PainterBounds.available window col alignment in
  exists r,
    add_str_no_overflows window line col string extra_lines alignment attr
    = Ok r
    /\ (curses.maxy window <= line + 1 + extra_lines ->
        written (snd r) = firstn (Z.to_nat a) string /\ fst r = line + 1)
    /\ (line + 1 + extra_lines < curses.maxy window ->
        written (snd r) = firstn (Z.to_nat (a * (1 + extra_lines))) string).
Proof.
  intros Hw Hline Hcol Hattr He a. unfold add_str_no_overflows.
  fold (PainterBounds.available window col alignment). fold a.
  assert (Ha : 0 <= a) by (eapply PainterBounds.available_nonneg; eauto).
  destruct (add_str_align_one window col alignment attr Hattr line
              (slice string None (Some a))) as (c & ->).
  cbn [bind].
  destruct (Z_le_gt_dec (curses.maxy window) (line + 1 + extra_lines))
    as [Hno | Hroom].
  - rewrite overflow_loop_no_room by lia. cbn [bind fst snd].
    eexists. split; [reflexivity|]. cbn [fst snd]. split; [|lia].
    intros _. unfold written. cbn [app map concat p_text].
    rewrite app_nil_r, slice_upto by trivial. split; [reflexivity | lia].
  - destruct (overflow_loop_room window col alignment attr a Ha Hattr
                (Z.to_nat extra_lines) line string)
      as ([last after] & -> & Hwr); [lia|].
    cbn [bind fst snd] in *. eexists. split; [reflexivity|].
    cbn [fst snd]. split; [lia|]. intros _.
    unfold written in *. cbn [app map concat p_text]. rewrite Hwr.
    rewrite slice_upto, slice_from by trivial.
    replace (Z.to_nat (a * (1 + extra_lines)))
      with (Z.to_nat a + Z.to_nat extra_lines * Z.to_nat a)%nat by nia.
    now rewrite firstn_plus.
Qed.

Lemma painter_extra_lines_all_or_nothing_witness :
  exists r,
    add_str_no_overflows (curses.mkWindow 10 12) 5 0
      (of_string "a long line of text") 5 LEFT None = Ok r
    /\ (10 <= 5 + 1 + 5 ->
        written (snd r) = firstn 10 (of_string "a long line of text")
        /\ fst r = 5 + 1)
    /\ (5 + 1 + 5 < 10 ->
        written (snd r)
        = firstn (Z.to_nat (10 * (1 + 5))) (of_string "a long line of text")).
Proof.
  apply (painter_extra_lines_all_or_nothing (curses.mkWindow 10 12) 5 0
           (of_string "a long line of text") 5 LEFT None).
  - cbn. lia.
  - cbn. lia.
  - discriminate.
  - discriminate.
  - lia.
Defined.

End PainterText.

(** ** Input field: what is typed, what is shown *)

Module InputTyping.

Import InputField.

Lemma printable_is_not_backspace key :
  is_key_printable key = true -> (key =? curses.KEY_BACKSPACE) = false.
Proof.
  intros Hp. apply Z.eqb_neq. intros ->. discriminate Hp.
Qed.

Lemma drop_last_snoc {A} (l : list A) (a : A) :
  slice (l ++ [a]) None (Some (-1)) = l.
Proof.
  rewrite slice_drop_last, length_app. cbn [length].
  replace (length l + 1 - 1)%nat with (length l + 0)%nat by lia.
  rewrite firstn_app_2. cbn [firstn]. apply app_nil_r.
Qed.

Lemma typed_from (keys : list Z) :
  forall f,
    InputBound.bounded f ->
    forallb is_key_printable keys = true ->
    _value (handle_inputs keys f)
    = firstn (Z.to_nat (max_length f)) (_value f ++ keys).
Proof.
  induction keys as [|key rest IH]; intros f Hb Hp; cbn [handle_inputs].
  - rewrite app_nil_r. symmetry. apply firstn_all2.
    destruct Hb as (_ & Hle). unfold len in Hle. lia.
  - cbn [forallb] in Hp. apply andb_true_iff in Hp. destruct Hp as (Hk & Hr).
    destruct (InputBound.handle_input_bounded key f Hb) as (Hb' & Hm).
    rewrite IH by trivial. rewrite Hm.
    destruct Hb as (Heq & Hle).
    unfold handle_input. rewrite Hk. cbn [andb].
    destruct (len (text f) <? max_length f) eqn:E.
    + cbn [fst _value]. unfold chr. now rewrite <- app_assoc.
    + rewrite (printable_is_not_backspace key Hk). cbn [fst].
      apply Z.ltb_ge in E.
      assert (Hfull : length (_value f) = Z.to_nat (max_length f))
        by (unfold len in *; lia).
      rewrite <- Hfull, !firstn_app, !Nat.sub_diag, !firstn_O. reflexivity.
Qed.

(** X6: when every key typed into a new input field is printable, the
    value of the field is what was typed, cut at [max_length]: the keys
    beyond the capacity are dropped, whatever they are. *)
Theorem typed_value_is_cut_at_max_length
    (win : curses.window) (y x : Z) (label : str) (is_password : bool)
    (max_len spacing : Z) (keys : list Z) :
  forallb is_key_printable keys = true ->
  let f0 := init win y x label is_password max_len spacing in
  get_value (handle_inputs keys f0) = firstn (Z.to_nat (max_length f0)) keys.
Proof.
  intros Hp f0. unfold get_value.
  rewrite typed_from; [reflexivity | apply InputBound.init_bounded | exact Hp].
Qed.

Lemma typed_value_is_cut_at_max_length_witness :
  let f0 := init Fixture.screen 0 0 (of_string "Name:") false 3 1 in
  get_value (handle_inputs (of_string "abcde") f0)
  = firstn (Z.to_nat (max_length f0)) (of_string "abcde").
Proof.
  apply (typed_value_is_cut_at_max_length Fixture.screen 0 0
           (of_string "Name:") false 3 1 (of_string "abcde")).
  reflexivity.
Defined.

(** What is shown for a value. *)
Definition shown (is_password : bool) (value : str) : str :=
  if is_password then repeat 42 (length value) else value.

Lemma shown_step is_password (value : str) key :
  shown is_password value ++ (if negb is_password then chr key else [42])
  = shown is_password (value ++ chr key).
Proof.
  unfold shown, chr. destruct is_password; cbn [negb]; [|reflexivity].
  rewrite length_app. cbn [length].
  rewrite repeat_app. reflexivity.
Qed.

Lemma firstn_repeat_le {A} (a : A) (k : nat) :
  forall n, (k <= n)%nat -> firstn k (repeat a n) = repeat a k.
Proof.
  induction k as [|k IH]; intros [|n] H; cbn; try lia; trivial.
  f_equal. apply IH. lia.
Qed.

Lemma shown_drop_last is_password (value : str) :
  slice (shown is_password value) None (Some (-1))
  = shown is_password (slice value None (Some (-1))).
Proof.
  unfold shown. destruct is_password; [|reflexivity].
  rewrite !slice_drop_last, repeat_length, length_firstn.
  rewrite Nat.min_l by lia.
  apply firstn_repeat_le. lia.
Qed.

Lemma handle_input_shown key f :
  text f = shown (is_password f) (_value f) ->
  text (fst (handle_input key f))
  = shown (is_password (fst (handle_input key f)))
      (_value (fst (handle_input key f)))
  /\ is_password (fst (handle_input key f)) = is_password f.
Proof.
  intros H. unfold handle_input.
  destruct (is_key_printable key && (len (text f) <? max_length f)).
  - cbn [fst text _value is_password]. rewrite H. split; [|reflexivity].
    apply shown_step.
  - destruct (key =? curses.KEY_BACKSPACE); cbn [fst text _value is_password].
    + rewrite H. split; [|reflexivity]. apply shown_drop_last.
    + now split.
Qed.

(** X7: after any keys, a password field shows one star for each
    character of its value and nothing else, and any other field shows its
    value. *)
Theorem text_is_value_or_stars
    (win : curses.window) (y0 x0 : Z) (lbl : str) (pw : bool)
    (max_len sp : Z) (keys : list Z) :
  let f := handle_inputs keys (init win y0 x0 lbl pw max_len sp) in
  text f = (if pw then repeat 42 (length (_value f)) else _value f).
Proof.
  cbn zeta.
  assert (H : forall f,
             text f = shown (is_password f) (_value f) ->
             text (handle_inputs keys f)
             = shown (is_password f) (_value (handle_inputs keys f))).
  { induction keys as [|key rest IH]; intros f Hf; cbn [handle_inputs].
    - exact Hf.
    - destruct (handle_input_shown key f Hf) as (H1 & H2).
      rewrite (IH _ H1). now rewrite H2. }
  apply (H (init win y0 x0 lbl pw max_len sp)).
  unfold init, shown. cbn. now destruct pw.
Qed.

(** X8: a printable key accepted by the field and then Backspace leave
    the field exactly as it was. *)
Theorem type_then_backspace_restores (f : t) (key : Z) :
  is_key_printable key = true ->
  len (text f) < max_length f ->
  fst (handle_input key f) <> f
  /\ handle_input curses.KEY_BACKSPACE (fst (handle_input key f)) = (f, None).
Proof.
  intros Hp Hlen.
  assert (E : handle_input key f
              = (mk (win f) (y f) (x f) (label f) (is_password f)
                   (max_length f) (spacing f)
                   (text f ++ (if negb (is_password f) then chr key else [42]))
                   (_value f ++ chr key) (subwin f), None)).
  { unfold handle_input. rewrite Hp, (proj2 (Z.ltb_lt _ _) Hlen). reflexivity. }
  rewrite E. cbn [fst]. split.
  - intros H. apply (f_equal _value) in H. cbn [_value] in H.
    apply (f_equal (@length _)) in H. rewrite length_app in H.
    cbn [length chr] in H. lia.
  - unfold handle_input. cbn [text _value max_length win y x label
      is_password spacing subwin].
    destruct (is_key_printable curses.KEY_BACKSPACE && _) eqn:E2;
      [discriminate E2|].
    cbn [Z.eqb Pos.eqb curses.KEY_BACKSPACE].
    unfold chr. rewrite drop_last_snoc.
    replace (slice (text f ++ (if negb (is_password f) then [key] else [42]))
               None (Some (-1))) with (text f)
      by (destruct (is_password f); cbn [negb]; now rewrite drop_last_snoc).
    now destruct f.
Qed.

Lemma type_then_backspace_restores_witness :
  let f := handle_inputs (of_string "ab")
             (init Fixture.screen 0 0 (of_string "Name:") true 3 1) in
  fst (handle_input 99 f) <> f
  /\ handle_input curses.KEY_BACKSPACE (fst (handle_input 99 f)) = (f, None).
Proof.
  apply type_then_backspace_restores.
  - reflexivity.
  - vm_compute. reflexivity.
Defined.

(** X9: a field asked for a non-negative [max_length], with spacing at
    least 1, in a window wide enough for its label, the spacing and one
    more column, is drawn inside its sub-window after any keys: the label
    and the text end before the width of the sub-window, which is no wider
    than the window; and when the field is active the cursor is put right
    after the text, the clamp never moving it. *)
Theorem field_is_drawn_inside
    (win : curses.window) (y0 x0 : Z) (lbl : str) (pw : bool)
    (max_len sp : Z) (keys : list Z) :
  0 <= max_len ->
  1 <= sp ->
  0 <= x0 ->
  len lbl + sp + 1 <= curses.maxx win ->
  let f := handle_inputs keys (init win y0 x0 lbl pw max_len sp) in
  let w := curses.maxx (subwin f) in
  w <= curses.maxx win
  /\ Forall (fun c => let '(row, col, s) := c in
                      row = 0 /\ 0 <= col /\ col + len s < w)
       (fst (draw_calls true f))
  /\ snd (draw_calls true f) = Some (y0, x0 + len lbl + 1 + len (text f)).
Proof.
  intros Hm Hs Hx Hfit f w. subst w f.
  set (f0 := init win y0 x0 lbl pw max_len sp).
  destruct (InputBound.handle_inputs_bounded keys f0
              (InputBound.init_bounded win y0 x0 lbl pw max_len sp))
    as ((Heq & Hle) & Hmax).
  assert (Hframe : forall ks g,
             subwin (handle_inputs ks g) = subwin g
             /\ label (handle_inputs ks g) = label g
             /\ x (handle_inputs ks g) = x g
             /\ y (handle_inputs ks g) = y g).
  { induction ks as [|k ks IH]; intros g; cbn [handle_inputs]; [tauto|].
    destruct (IH (fst (handle_input k g))) as (-> & -> & -> & ->).
    unfold handle_input.
    destruct (is_key_printable k && _); [cbn; tauto|].
    destruct (k =? curses.KEY_BACKSPACE); cbn; tauto. }
  destruct (Hframe keys f0) as (Hsw & Hlab & Hfx & Hfy).
  set (f := handle_inputs keys f0) in *.
  set (w := curses.maxx (subwin f)).
  assert (Hw : w = Z.min (max_len + len lbl + sp + 1) (curses.maxx win))
    by (unfold w; rewrite Hsw; reflexivity).
  assert (Hmax0 : max_length f0 = w - len lbl - sp - 1).
  { unfold f0, init. cbn [max_length]. rewrite <- Hw.
    destruct (_ <? 0) eqn:E; [apply Z.ltb_lt in E; lia | reflexivity]. }
  pose proof (len_nonneg lbl). pose proof (len_nonneg (text f)).
  unfold draw_calls. rewrite Hlab, Hfx, Hfy. fold w.
  change (label f0) with lbl. change (x f0) with x0. change (y f0) with y0.
  cbn [fst snd].
  split; [lia|]. split.
  - repeat constructor; lia.
  - do 2 f_equal. lia.
Qed.

Lemma field_is_drawn_inside_witness :
  let f := handle_inputs (of_string "abcde")
             (init Fixture.screen 0 2 (of_string "Name:") false 3 1) in
  let w := curses.maxx (subwin f) in
  w <= 80
  /\ Forall (fun c => let '(row, col, s) := c in
                      row = 0 /\ 0 <= col /\ col + len s < w)
       (fst (draw_calls true f))
  /\ snd (draw_calls true f) = Some (0, 2 + 5 + 1 + len (text f)).
Proof.
  apply (field_is_drawn_inside Fixture.screen 0 2 (of_string "Name:") false
           3 1 (of_string "abcde")); try lia.
  vm_compute. discriminate.
Defined.

End InputTyping.

(** ** Menu selector: drawing, scrolling and [run] *)

Module MenuDrawing.

Import MenuSelector.

(** When [draw] returns, the selector is as it was. *)
Lemma draw_same (is_active : bool) (self self' : t) :
  draw is_active self = Ok self' -> self' = self.
Proof.
  unfold draw.
  match goal with
  | |- bind ?c _ = _ -> _ => destruct c; cbn [bind]; congruence
  end.
Qed.

(** X11: a selector built with MANUAL alignment over at least one option
    (and, when VERTICAL, with a height of at least 1) cannot be drawn:
    [draw] raises [TypeError], so [run] raises it before reading a key. *)
Theorem manual_alignment_cannot_be_drawn
    (win : curses.window) (opts : list str) (y0 x0 h w : Z)
    (o : OrientationOptions) (is_active : bool) (keys : list Z) :
  opts <> [] ->
  (o = VERTICAL -> 1 <= h) ->
  draw is_active (init win opts y0 x0 h w o MANUAL) = Raise TypeError
  /\ run keys (init win opts y0 x0 h w o MANUAL) = Raised TypeError.
Proof.
  intros Hne Hh.
  assert (Hd : forall b, draw b (init win opts y0 x0 h w o MANUAL)
                         = Raise TypeError).
  { intros b. unfold draw, init.
    cbn [orientation first_option_idx height options alignment subwin].
    unfold string_painter.compute_strs_h_aligned.
    destruct opts as [|d ds]; [congruence|].
    destruct o; cbn [is_vertical].
    - specialize (Hh eq_refl). pose proof (len_nonneg (d :: ds)).
      rewrite slice_between by lia.
      cbn [Z.to_nat skipn]. rewrite Nat.sub_0_r.
      destruct (Z.to_nat (Z.min (0 + h - 1) (len (d :: ds)) + 1)) eqn:E;
        [lia|].
      reflexivity.
    - reflexivity. }
  split; [apply Hd|]. unfold run. now rewrite Hd.
Qed.

Lemma manual_alignment_cannot_be_drawn_witness :
  draw true (init Fixture.screen Fixture.abc 0 0 2 10 VERTICAL MANUAL)
  = Raise TypeError
  /\ run [curses.KEY_DOWN; 10]
       (init Fixture.screen Fixture.abc 0 0 2 10 VERTICAL MANUAL)
     = Raised TypeError.
Proof.
  apply manual_alignment_cannot_be_drawn.
  - discriminate.
  - intros _. lia.
Defined.

Lemma handle_input_enter self :
  handle_input 10 self = (self, Some (selected self)).
Proof.
  unfold handle_input.
  cbn [Z.eqb Pos.eqb curses.KEY_UP curses.KEY_DOWN curses.KEY_LEFT
       curses.KEY_RIGHT andb].
  reflexivity.
Qed.

Lemma handle_input_other key self :
  key <> 10 -> snd (handle_input key self) = None.
Proof.
  intros Hk. unfold handle_input.
  repeat match goal with
    | |- context [if key =? 10 then _ else _] =>
        destruct (Z.eqb_spec key 10); [congruence|]
    | |- context [if ?c then _ else _] => destruct c
    end; reflexivity.
Qed.

Lemma run_loop_at_first_enter (pre post : list Z) :
  forall self,
    ~ In 10 pre ->
    match run_loop pre self with
    | Blocked s =>
        s = handle_inputs pre self
        /\ run_loop (pre ++ 10 :: post) self = Returned (selected s)
    | Raised e => run_loop (pre ++ 10 :: post) self = Raised e
    | Returned _ => False
    end.
Proof.
  induction pre as [|key pre IH]; intros self Hpre.
  - cbn [app run_loop handle_inputs]. now rewrite handle_input_enter.
  - cbn [app run_loop handle_inputs].
    assert (Hk : key <> 10) by (intros ->; apply Hpre; now left).
    pose proof (handle_input_other key self Hk) as Hn.
    destruct (handle_input key self) as [self' r]. cbn [fst snd] in *.
    subst r. destruct (draw true self') as [self'' | e] eqn:Ed; [|reflexivity].
    apply draw_same in Ed. subst self''. apply IH.
    intros Hin. apply Hpre. now right.
Qed.

(** X12: [run] on keys without an Enter does not return.  If it has
    handled them all and waits for the next key, the selector is the one
    the keys have made, and on the same keys followed by Enter [run]
    returns the index they have selected, reading nothing after the
    Enter.  If an exception of [draw] has left it, the same exception
    leaves it on the longer input. *)
Theorem run_returns_at_first_enter (self : t) (pre post : list Z) :
  ~ In 10 pre ->
  match run pre self with
  | Blocked s =>
      s = handle_inputs pre self
      /\ run (pre ++ 10 :: post) self = Returned (selected s)
  | Raised e => run (pre ++ 10 :: post) self = Raised e
  | Returned _ => False
  end.
Proof.
  intros Hpre. unfold run.
  destruct (draw true self) as [self' | e] eqn:Ed; [|reflexivity].
  apply draw_same in Ed. subst self'.
  now apply run_loop_at_first_enter.
Qed.

Lemma run_returns_at_first_enter_witness :
  let m := init Fixture.screen Fixture.abc 0 0 2 10 VERTICAL LEFT in
  run [curses.KEY_DOWN; curses.KEY_DOWN] m
  = Blocked (handle_inputs [curses.KEY_DOWN; curses.KEY_DOWN] m)
  /\ run ([curses.KEY_DOWN; curses.KEY_DOWN] ++ 10 :: [curses.KEY_UP]) m
     = Returned 2.
Proof.
  intros m.
  assert (Hpre : ~ In 10 [curses.KEY_DOWN; curses.KEY_DOWN])
    by (cbn; intros [H | [H | []]]; discriminate H).
  pose proof (run_returns_at_first_enter m [curses.KEY_DOWN; curses.KEY_DOWN]
                [curses.KEY_UP] Hpre) as H.
  vm_compute in H. destruct H as [_ H].
  split; [vm_compute; reflexivity | vm_compute; exact H].
Defined.

(** The selection is on a row of the window, or the list has not moved. *)
Definition in_view (self : t) : Prop :=
  match orientation self with
  | HORIZONTAL => first_option_idx self = 0
  | VERTICAL =>
      first_option_idx self <= selected self
      <= first_option_idx self + height self - 1
  end.

Lemma handle_input_in_view key self :
  1 <= height self -> in_view self ->
  in_view (fst (handle_input key self))
  /\ height (fst (handle_input key self)) = height self.
Proof.
  unfold in_view, handle_input, _handle_key_up, _handle_key_down.
  intros Hh Hv. pose proof (len_nonneg (options self)).
  destruct (orientation self) eqn:Eo; cbn [is_vertical is_horizontal negb andb];
    rewrite ?andb_false_r;
    repeat match goal with
      | |- context [if ?c then _ else _] => destruct c eqn:?
      end;
    cbn [fst orientation first_option_idx selected height set_selected
         set_first_option_idx options] in *;
    rewrite ?Eo; tests_to_props; split;
    try reflexivity; try congruence; try assumption; try lia.
Qed.

(** X13: in a VERTICAL selector of height at least 1 the selected option
    is, after any keys, one of the [height] options from
    [first_option_idx] on, the ones [draw] displays; a HORIZONTAL selector
    never scrolls, its [first_option_idx] stays 0. *)
Theorem selection_stays_in_view
    (win : curses.window) (opts : list str) (y0 x0 h w : Z)
    (o : OrientationOptions) (a : AlignmentOptions) (keys : list Z) :
  1 <= h ->
  let m := handle_inputs keys (init win opts y0 x0 h w o a) in
  match o with
  | HORIZONTAL => first_option_idx m = 0
  | VERTICAL =>
      first_option_idx m <= selected m <= first_option_idx m + h - 1
  end.
Proof.
  intros Hh m.
  assert (H : forall self,
             height self = h -> orientation self = o -> in_view self ->
             in_view (handle_inputs keys self)
             /\ height (handle_inputs keys self) = h
             /\ orientation (handle_inputs keys self) = o).
  { induction keys as [|key rest IH]; intros self Eh Eo Hv;
      cbn [handle_inputs]; [tauto|].
    destruct (handle_input_in_view key self) as (Hv' & Eh'); [lia | trivial |].
    apply IH; trivial; [congruence|].
    rewrite <- Eo. unfold handle_input, _handle_key_up, _handle_key_down.
    repeat match goal with
      | |- context [if ?c then _ else _] => destruct c
      end; reflexivity. }
  destruct (H (init win opts y0 x0 h w o a)) as (Hv & Eh & Eo);
    try reflexivity.
  { unfold in_view, init. cbn. destruct o; lia. }
  fold m in Hv, Eh, Eo. unfold in_view in Hv. rewrite Eo, Eh in Hv. exact Hv.
Qed.

Lemma selection_stays_in_view_witness :
  let m := handle_inputs [curses.KEY_DOWN; curses.KEY_DOWN; curses.KEY_UP]
             (init Fixture.screen Fixture.abc 0 0 2 10 VERTICAL LEFT) in
  first_option_idx m <= selected m <= first_option_idx m + 2 - 1.
Proof.
  apply (selection_stays_in_view Fixture.screen Fixture.abc 0 0 2 10
           VERTICAL LEFT [curses.KEY_DOWN; curses.KEY_DOWN; curses.KEY_UP]).
  lia.
Defined.

End MenuDrawing.

(** ** Window utilities: centring a window *)

Module Centering.

Import window_utils.

(** X14: a window of at least one row and one column, no larger than the
    screen, is centred inside it: the position computed leaves it within
    the screen, with margins before and after that differ by at most one
    row and one column; and [create_center_window] makes the window of the
    size asked at that position. *)
Theorem centered_window_is_inside (stdscr : curses.window) (height width : Z) :
  1 <= height <= curses.maxy stdscr ->
  1 <= width <= curses.maxx stdscr ->
  let '(cy, cx) := compute_window_centered_position stdscr height width in
  0 <= cy /\ cy + height <= curses.maxy stdscr
  /\ 0 <= cx /\ cx + width <= curses.maxx stdscr
  /\ -1 <= (curses.maxy stdscr - (cy + height)) - cy <= 1
  /\ -1 <= (curses.maxx stdscr - (cx + width)) - cx <= 1
  /\ create_center_window stdscr height width
     = Ok (mkPlaced height width cy cx).
Proof.
  intros Hh Hw.
  unfold compute_window_centered_position, create_center_window, newwin.
  pose proof (Z.div_mod (curses.maxy stdscr) 2).
  pose proof (Z.mod_pos_bound (curses.maxy stdscr) 2).
  pose proof (Z.div_mod (curses.maxx stdscr) 2).
  pose proof (Z.mod_pos_bound (curses.maxx stdscr) 2).
  pose proof (Z.div_mod height 2). pose proof (Z.mod_pos_bound height 2).
  pose proof (Z.div_mod width 2). pose proof (Z.mod_pos_bound width 2).
  set (cy := curses.maxy stdscr / 2 - height / 2) in *.
  set (cx := curses.maxx stdscr / 2 - width / 2) in *.
  rewrite (proj2 (Z.ltb_ge cy 0)), (proj2 (Z.ltb_ge cx 0)),
    (proj2 (Z.ltb_ge height 0)), (proj2 (Z.ltb_ge width 0)) by lia.
  rewrite (proj2 (Z.eqb_neq height 0)), (proj2 (Z.eqb_neq width 0)) by lia.
  rewrite (proj2 (Z.leb_gt height 0)), (proj2 (Z.leb_gt width 0)) by lia.
  cbn [orb]. repeat split; lia.
Qed.

Lemma centered_window_is_inside_witness :
  let '(cy, cx) := compute_window_centered_position Fixture.screen 20 60 in
  0 <= cy /\ cy + 20 <= 24
  /\ 0 <= cx /\ cx + 60 <= 80
  /\ -1 <= (24 - (cy + 20)) - cy <= 1
  /\ -1 <= (80 - (cx + 60)) - cx <= 1
  /\ create_center_window Fixture.screen 20 60 = Ok (mkPlaced 20 60 cy cx).
Proof.
  apply (centered_window_is_inside Fixture.screen 20 60); cbn; lia.
Defined.

End Centering.

(** ** Widget manager: Tab moves the focus round *)

Module FocusCycle.

Import WidgetManager.

Lemma draw_from_length active ws :
  forall i ws', draw_from i active ws = Ok ws' -> length ws' = length ws.
Proof.
  induction ws as [|w ws IH]; intros i ws'; cbn [draw_from].
  - intros H. now injection H as <-.
  - destruct (draw (i =? active) w) as [w' | e]; cbn [bind]; [|discriminate].
    destruct (draw_from (i + 1) active ws) as [rest | e] eqn:E; cbn [bind];
      [|discriminate].
    intros H. injection H as <-. cbn [length]. f_equal. eapply IH, E.
Qed.

Lemma tabs_from (k : nat) :
  forall self,
    0 <= active_selector self < len (widgets self) ->
    match loop (repeat 9 k) self with
    | Blocked self' =>
        active_selector self'
        = (active_selector self + Z.of_nat k) mod len (widgets self)
        /\ length (widgets self') = length (widgets self)
    | Raised _ => True
    | Returned _ _ => False
    end.
Proof.
  induction k as [|k IH]; intros self Ha; cbn [repeat loop].
  - split; [|reflexivity].
    rewrite Z.add_0_r. symmetry. now apply Z.mod_small.
  - cbn [Z.eqb Pos.eqb]. unfold pymod.
    rewrite (proj2 (Z.eqb_neq _ 0)) by lia.
    unfold draw_all. cbn [widgets active_selector].
    destruct (draw_from 0 ((active_selector self + 1) mod len (widgets self))
                (widgets self)) as [ws' | e] eqn:Ed; cbn [bind]; [|exact I].
    apply draw_from_length in Ed.
    assert (El : len ws' = len (widgets self)) by (unfold len; lia).
    specialize (IH (mk ws' ((active_selector self + 1)
                            mod len (widgets self)))).
    cbn [widgets active_selector] in IH.
    destruct (loop (repeat 9 k) _) as [s p | e | s]; try exact I.
    + apply IH. rewrite El. apply Z.mod_pos_bound. lia.
    + destruct IH as (Ha' & Hlen').
      { rewrite El. apply Z.mod_pos_bound. lia. }
      split; [|lia].
      rewrite Ha', El, Zplus_mod_idemp_l. f_equal. lia.
Qed.

(** X15: over a non-empty list of [n] widgets [run] does not return on
    Tab keys, and when it has handled [k] of them and waits for the next
    key (no [draw] has raised), the focus is on widget [k mod n] and the
    list has its [n] widgets: Tab moves the focus round the list. *)
Theorem tab_cycles_focus (ws : list widget) (k : nat) :
  ws <> [] ->
  match run (repeat 9 k) (init ws) with
  | Blocked self' =>
      active_selector self' = Z.of_nat k mod len ws
      /\ length (widgets self') = length ws
  | Raised _ => True
  | Returned _ _ => False
  end.
Proof.
  intros Hne. unfold run, draw_all, init. cbn [widgets active_selector].
  destruct (draw_from 0 0 ws) as [ws' | e] eqn:Ed; cbn [bind]; [|exact I].
  apply draw_from_length in Ed.
  assert (El : len ws' = len ws) by (unfold len; lia).
  assert (Hn : 0 < len ws).
  { unfold len. destruct ws; [congruence | cbn [length]; lia]. }
  pose proof (tabs_from k (mk ws' 0)) as H.
  cbn [widgets active_selector] in H.
  destruct (loop (repeat 9 k) _) as [s p | e | s]; try exact I.
  - apply H. lia.
  - destruct H as (Ha & Hlen); [lia|].
    split; [|lia]. rewrite Ha, El. f_equal.
Qed.

Lemma tab_cycles_focus_witness :
  exists self',
    run (repeat 9 5%nat)
      (init [Input (InputField.init Fixture.screen 0 0 (of_string "Name:")
                      false 15 1);
             Menu (MenuSelector.init Fixture.screen Fixture.abc 2 0 2 10
                     VERTICAL LEFT)])
    = Blocked self'
    /\ active_selector self' = 1
    /\ length (widgets self') = 2%nat.
Proof.
  assert (Hne : [Input (InputField.init Fixture.screen 0 0 (of_string "Name:")
                          false 15 1);
                 Menu (MenuSelector.init Fixture.screen Fixture.abc 2 0 2 10
                         VERTICAL LEFT)] <> []) by discriminate.
  pose proof (tab_cycles_focus _ 5 Hne) as H.
  eexists. split; [vm_compute; reflexivity|].
  vm_compute in H. vm_compute. exact H.
Defined.

End FocusCycle.

(** ** Text box: the shape of the lines *)

Module LineShape.

Import TextBox Reflow.

Lemma chunk_length w (text : str) i :
  length (firstn w (skipn (i * w) text)) = Nat.min w (length text - i * w).
Proof. now rewrite length_firstn, length_skipn. Qed.

(** X16: for a box width [W > 0], [_split_text] makes
    [(len(text) + W + 1) // W] lines, at least one; line [i] holds the
    characters of the text from position [i * W] on, [W] of them when the
    text has that many left and the rest of the text otherwise, so that no
    line is longer than [W]. *)
Theorem split_text_shape (W : Z) (text : str) :
  0 < W ->
  exists ls,
    _split_text W text = Ok ls
    /\ len ls = (len text + W + 1) / W
    /\ 1 <= len ls
    /\ Forall (fun l => len l <= W) ls
    /\ forall (i : nat) l,
         nth_error ls i = Some l ->
         l = firstn (Z.to_nat W) (skipn (i * Z.to_nat W) text)
         /\ len l = Z.max 0 (Z.min W (len text - Z.of_nat i * W)).
Proof.
  intros HW. exists (chunks (Z.to_nat W) (n_lines W text) text).
  split; [now apply split_text_chunks|].
  pose proof (n_lines_pos W text HW) as Hpos.
  assert (Hq : 0 <= (len text + W + 1) / W).
  { apply Z.div_pos; [pose proof (len_nonneg text)|]; lia. }
  split; [|split; [|split]].
  - unfold len at 1. rewrite chunks_length. unfold n_lines. lia.
  - unfold len. rewrite chunks_length. lia.
  - unfold chunks. apply Forall_map, Forall_forall. intros i _.
    unfold len. rewrite chunk_length. lia.
  - intros i l Hi.
    assert (Hlt : (i < n_lines W text)%nat).
    { rewrite <- (chunks_length (Z.to_nat W) (n_lines W text) text).
      apply nth_error_Some. congruence. }
    rewrite chunks_nth in Hi by trivial. injection Hi as <-.
    split; [reflexivity|]. unfold len. rewrite chunk_length. nia.
Qed.

Lemma split_text_shape_witness :
  exists ls,
    _split_text 5 (of_string "HELLOWORLD!") = Ok ls
    /\ len ls = (11 + 5 + 1) / 5
    /\ 1 <= len ls
    /\ Forall (fun l => len l <= 5) ls
    /\ forall (i : nat) l,
         nth_error ls i = Some l ->
         l = firstn 5 (skipn (i * 5) (of_string "HELLOWORLD!"))
         /\ len l = Z.max 0 (Z.min 5 (11 - Z.of_nat i * 5)).
Proof. apply (split_text_shape 5 (of_string "HELLOWORLD!")). reflexivity. Defined.

Lemma range_nonpos n : n <= 0 -> range n = [].
Proof. intros H. unfold range. now replace (Z.to_nat n) with 0%nat by lia. Qed.

(** X17: a box width that is not positive loses the text or fails:
    [_split_text] raises [ZeroDivisionError] for width 0, and for a
    negative width it returns the single empty line whatever the text.  So
    the constructor of a text box raises [ZeroDivisionError] for
    [width = 2], before it makes the sub-window, and a box that it does
    build with a smaller [width] starts empty. *)
Theorem split_text_needs_positive_width
    (win : curses.window) (y0 x0 h w : Z) (text : str) (ek : option str) :
  w <= 2 ->
  _split_text (w - 2) text
  = (if w =? 2 then Raise ZeroDivisionError else Ok [[]])
  /\ (w = 2 -> init win y0 x0 h w text ek = Raise ZeroDivisionError)
  /\ (forall self,
        init win y0 x0 h w text ek = Ok self ->
        w < 2 /\ lines self = [[]] /\ get_text self = []).
Proof.
  intros Hw.
  assert (E : _split_text (w - 2) text
              = (if w =? 2 then Raise ZeroDivisionError else Ok [[]])).
  { unfold _split_text, floordiv.
    destruct (Z.eqb_spec w 2) as [-> | Hne]; [reflexivity|].
    rewrite (proj2 (Z.eqb_neq (w - 2) 0)) by lia. cbn [bind].
    rewrite range_nonpos; [reflexivity|].
    pose proof (len_nonneg text).
    pose proof (Z.div_mod (len text + (w - 2) + 1) (w - 2)).
    pose proof (Z.mod_neg_bound (len text + (w - 2) + 1) (w - 2)).
    nia. }
  split; [exact E|]. unfold init. rewrite E.
  destruct (Z.eqb_spec w 2) as [-> | Hne]; cbn [bind].
  - split; [reflexivity | discriminate].
  - split; [congruence|]. intros self H. injection H as <-.
    cbn [lines get_text join concat app]. repeat split. lia.
Qed.

Lemma split_text_needs_positive_width_witness :
  _split_text (1 - 2) (of_string "HELLO") = Ok [[]]
  /\ exists self,
       init Fixture.screen 0 0 2 1 (of_string "HELLO") None = Ok self
       /\ lines self = [[]] /\ get_text self = [].
Proof.
  assert (Hw : 1 <= 2) by lia.
  destruct (split_text_needs_positive_width Fixture.screen 0 0 2 1
              (of_string "HELLO") None Hw) as (Hs & _ & Hb).
  split; [exact Hs|].
  eexists. split; [vm_compute; reflexivity|].
  refine (proj2 (Hb _ _)). vm_compute. reflexivity.
Defined.

End LineShape.

(** ** Text box: typing *)

Module Typing.

Import TextBox Reflow InsertDelete.

(** Where [_add_char] leaves the cursor: one column right, or at the start
    of the next row, or at the start of the same row with the window
    scrolled down by one line. *)
Definition advance (self : t) : t :=
  if cursor_x self <? box_width self
  then set_cursor_x (cursor_x self + 1) self
  else if cursor_y self <? box_height self
  then set_cursor_y (cursor_y self + 1) (set_cursor_x 1 self)
  else set_cursor_x 1 (set_first_line_idx (first_line_idx self + 1) self).

(** A printable key typed with the cursor on the text, in any column of
    the box: the character goes in at the cursor. *)
Lemma insert_on_text (self : t) (key : Z) (text : str) (i k : nat) :
  _editable self = true ->
  0 < box_width self ->
  lines self = reflow (box_width self) text ->
  is_key_printable key = true ->
  first_line_idx self + cursor_y self - 1 = Z.of_nat i ->
  cursor_x self - 1 = Z.of_nat k ->
  cursor_x self <= box_width self ->
  (i * Z.to_nat (box_width self) + k <= length text)%nat ->
  handle_input key self
  = Ok (set_edited true
          (set_lines
             (reflow (box_width self)
                (put_in (i * Z.to_nat (box_width self) + k) (chr key) text))
             (advance self)),
        None).
Proof.
  destruct self as [wn y0 x0 h wd bh W ls ek cx cy fli ed editable sw].
  unfold advance. fields. intros -> HW -> Hp Hi Hk Hcx Hin.
  destruct (printable_is_no_callback key Hp) as (H1 & H2 & H3 & H4 & H5 & H6).
  unfold handle_input. rewrite H1, H2, H3, H4, H5, H6, Hp.
  unfold _add_char, _check_editable_flag. fields. rewrite Hi, Hk.
  destruct (reflow_line W HW text i) as (Hidx & Hset); [lia|].
  rewrite Hidx. fields.
  rewrite slice_upto, slice_from, Nat2Z.id by lia.
  match goal with
  | |- context [setitem _ _ ?v] => destruct (Hset v) as (ls1 & -> & Hjoin)
  end.
  fields. unfold _recompute_lines.
  destruct (cx <? W); [|destruct (cy <? bh)]; fields; rewrite Hjoin;
    rewrite put_in_line by lia;
    rewrite split_text_chunks by trivial; reflexivity.
Qed.

(** The box is editable, its lines are those of [text], and the cursor is
    right after the last character. *)
Definition at_end (text : str) (self : t) : Prop :=
  _editable self = true
  /\ 0 < box_width self
  /\ lines self = reflow (box_width self) text
  /\ 0 <= first_line_idx self
  /\ 1 <= cursor_y self
  /\ 1 <= cursor_x self <= box_width self
  /\ (first_line_idx self + cursor_y self - 1) * box_width self
     + (cursor_x self - 1) = len text.

Lemma put_in_at_end (c text : str) : put_in (length text) c text = text ++ c.
Proof.
  unfold put_in. now rewrite firstn_all, skipn_all, app_nil_r.
Qed.

Lemma type_at_end text self key :
  at_end text self -> is_key_printable key = true ->
  exists s, handle_input key self = Ok (s, None)
            /\ at_end (text ++ chr key) s.
Proof.
  intros (He & HW & Hl & Hfli & Hcy & Hcx & Hpos) Hp.
  set (i := Z.to_nat (first_line_idx self + cursor_y self - 1)).
  set (k := Z.to_nat (cursor_x self - 1)).
  assert (Hp' : (i * Z.to_nat (box_width self) + k = length text)%nat).
  { apply Nat2Z.inj. rewrite Nat2Z.inj_add, Nat2Z.inj_mul.
    unfold i, k. rewrite !Z2Nat.id by lia. exact Hpos. }
  rewrite (insert_on_text self key text i k) by (unfold i, k; lia || trivial).
  rewrite Hp', put_in_at_end.
  eexists. split; [reflexivity|].
  unfold at_end, advance. destruct self. fields.
  assert (Hlen : len (text ++ chr key) = len text + 1)
    by (rewrite len_app; reflexivity).
  rewrite Hlen.
  destruct (cursor_x0 <? box_width0) eqn:E1;
    [|destruct (cursor_y0 <? box_height0) eqn:E2]; fields;
    tests_to_props; repeat split; trivial; lia.
Qed.

Lemma type_keys_at_end keys :
  forall text self,
    at_end text self -> forallb is_key_printable keys = true ->
    exists s, handle_inputs keys self = Ok s /\ at_end (text ++ keys) s.
Proof.
  induction keys as [|key rest IH]; intros text self Ha Hp;
    cbn [handle_inputs].
  - exists self. now rewrite app_nil_r.
  - cbn [forallb] in Hp. apply andb_true_iff in Hp. destruct Hp as (Hk & Hr).
    destruct (type_at_end text self key Ha Hk) as (s1 & -> & Ha1).
    cbn [bind fst].
    destruct (IH _ _ Ha1 Hr) as (s & Hs & Ha2).
    exists s. split; [exact Hs|].
    unfold chr in Ha2. now rewrite <- app_assoc in Ha2.
Qed.

Lemma at_end_text text self : at_end text self -> get_text self = text.
Proof.
  intros (_ & HW & Hl & _). unfold get_text. rewrite Hl. unfold reflow.
  rewrite join_chunks. apply firstn_all2.
  pose proof (n_lines_covers (box_width self) text HW). lia.
Qed.

(** X18: printable keys typed into a new, empty, editable text box of
    interior width at least 1 are all handled without error, whatever the
    height of the box and however many they are, and the text of the box
    is then exactly the keys typed, in order. *)
Theorem typed_text_is_the_keys
    (win : curses.window) (y0 x0 h w : Z) (keys : list Z) :
  0 < w - 2 ->
  forallb is_key_printable keys = true ->
  exists self,
    (b <- init win y0 x0 h w [] None ;; handle_inputs keys b) = Ok self
    /\ get_text self = keys.
Proof.
  intros HW Hp. unfold init.
  rewrite split_text_chunks by trivial. cbn [bind].
  match goal with
  | |- exists self, handle_inputs keys ?b = _ /\ _ =>
      destruct (type_keys_at_end keys [] b) as (s & Hs & Ha); trivial
  end.
  - unfold at_end. fields. repeat split; trivial; lia.
  - exists s. split; [exact Hs|]. now apply at_end_text in Ha.
Qed.

Lemma typed_text_is_the_keys_witness :
  exists self,
    (b <- init Fixture.screen 0 0 3 4 [] None ;;
     handle_inputs (of_string "one two three") b) = Ok self
    /\ get_text self = of_string "one two three".
Proof.
  apply (typed_text_is_the_keys Fixture.screen 0 0 3 4
           (of_string "one two three")); reflexivity.
Defined.

End Typing.

(** ** Text box: when a key raises, and what the cursor keys leave alone *)

Module KeySafety.

Import TextBox Reflow InsertDelete.

Lemma index_ok {A} (l : list A) i :
  0 <= i < len l -> exists a, index l i = Ok a.
Proof.
  intros Hi. unfold len in Hi.
  destruct (nth_error l (Z.to_nat i)) as [a|] eqn:E;
    [|apply nth_error_None in E; lia].
  exists a. rewrite <- (Z2Nat.id i) by lia. now apply index_nth.
Qed.

Lemma setitem_ok {A} (l : list A) i v :
  0 <= i < len l -> exists l', setitem l i v = Ok l'.
Proof.
  intros Hi. unfold len in Hi. eexists.
  rewrite <- (Z2Nat.id i) at 1 by lia. apply setitem_nth. lia.
Qed.

Lemma index_past_end {A} (l : list A) i :
  len l <= i -> index l i = Raise IndexError.
Proof.
  intros Hi. pose proof (len_nonneg l). unfold index.
  rewrite (proj2 (Z.ltb_ge i 0)) by lia.
  rewrite (proj2 (Z.ltb_ge i (len l))) by lia.
  now rewrite andb_false_r.
Qed.

Lemma recompute_ok self :
  0 < box_width self -> exists s, _recompute_lines self = Ok s.
Proof.
  intros HW. unfold _recompute_lines.
  rewrite split_text_chunks by trivial. cbn [bind]. eauto.
Qed.

(** X19: while the cursor is on a line of the buffer (and the box width
    is positive), no key raises: [handle_input] returns [None] for every
    key code. *)
Theorem no_key_raises_on_a_line (self : t) (key : Z) :
  0 < box_width self ->
  0 <= first_line_idx self ->
  1 <= cursor_y self ->
  first_line_idx self + cursor_y self <= len (lines self) ->
  exists s, handle_input key self = Ok (s, None).
Proof.
  intros HW Hfli Hcy Hon.
  assert (Hne : lines self <> []).
  { intros E. rewrite E in Hon. unfold len in Hon. cbn in Hon. lia. }
  destruct (EditGate.index_last (lines self) Hne) as (last & Hlast).
  assert (Hedit : forall r : result t,
             (exists s, r = Ok s /\ box_width s = box_width self) ->
             exists s, (s1 <- (s0 <- r ;; s2 <- _recompute_lines s0 ;;
                               Ok (set_edited true s2)) ;; Ok (s1, None))
                       = Ok (s, @None Z)).
  { intros r (s0 & -> & Hw). cbn [bind].
    destruct (recompute_ok s0) as (s2 & ->); [now rewrite Hw|].
    cbn [bind]. eauto. }
  unfold handle_input.
  repeat match goal with
    | |- context [if key =? ?c then _ else _] => destruct (key =? c)
    end.
  - unfold _key_up_callback. cbn [bind]. eauto.
  - unfold _key_down_callback. rewrite Hlast.
    repeat match goal with
      | |- context [if ?c then _ else _] => destruct c; cbn [bind]
      end; eauto.
  - unfold _key_left_callback.
    repeat match goal with
      | |- context [if ?c then _ else _] => destruct c; cbn [bind]
      end; eauto.
  - unfold _key_right_callback. rewrite Hlast.
    repeat match goal with
      | |- context [if ?c then _ else _] => destruct c; cbn [bind]
      end; eauto.
  - unfold _remove_char.
    destruct (negb (_editable self)); [cbn [bind]; eauto|].
    destruct ((cursor_x self =? 1) && (cursor_y self =? 1)) eqn:E0;
      [cbn [bind]; eauto|].
    apply Hedit.
    destruct (cursor_x self >? 1) eqn:E1.
    + destruct (index_ok (lines self)
                  (first_line_idx self + cursor_y self - 1)) as (l & ->);
        [lia|]. cbn [bind].
      match goal with
      | |- context [setitem ?l ?i ?v] =>
          destruct (setitem_ok l i v) as (ls & ->); [lia|]
      end.
      cbn [bind]. eexists. split; [reflexivity|]. now destruct self.
    + destruct (cursor_x self =? 1) eqn:E2; [|now exists self].
      cbn [andb] in E0. tests_to_props.
      destruct (index_ok (lines self)
                  (first_line_idx self + cursor_y self - 2)) as (l & ->);
        [lia|]. cbn [bind].
      match goal with
      | |- context [setitem ?l ?i ?v] =>
          destruct (setitem_ok l i v) as (ls & ->); [lia|]
      end.
      cbn [bind]. eexists. split; [reflexivity|]. now destruct self.
  - unfold _key_esc_callback. destruct (edit_key self); cbn [bind]; eauto.
  - destruct (is_key_printable key); [|cbn [bind]; eauto].
    unfold _add_char, _check_editable_flag.
    destruct (negb (_editable self)); cbn [negb bind]; [eauto|].
    destruct (index_ok (lines self)
                (first_line_idx self + cursor_y self - 1)) as (l & ->);
      [lia|]. cbn [bind].
    match goal with
    | |- context [setitem ?l ?i ?v] =>
        destruct (setitem_ok l i v) as (ls & ->); [lia|]
    end.
    cbn [bind].
    match goal with
    | |- context [_recompute_lines ?s] =>
        destruct (recompute_ok s) as (s2 & ->)
    end.
    + destruct self. fields.
      repeat match goal with
        | |- context [if ?c then _ else _] => destruct c
        end; exact HW.
    + cbn [bind]. eauto.
Qed.

Lemma no_key_raises_on_a_line_witness :
  exists self s,
    (b <- Fixture.box 4 ;; handle_inputs (of_string "HELLOW") b) = Ok self
    /\ handle_input curses.KEY_BACKSPACE self = Ok (s, None).
Proof.
  eexists.
  match goal with
  | |- exists s, ?r = Ok ?self /\ _ =>
      let v := eval vm_compute in r in
      match v with
      | Ok ?b =>
          destruct (no_key_raises_on_a_line b curses.KEY_BACKSPACE)
            as (s & Hs)
      end
  end.
  - reflexivity.
  - cbn; lia.
  - cbn; lia.
  - vm_compute. discriminate.
  - exists s. split; [vm_compute; reflexivity | exact Hs].
Defined.

(** X20: Down is not held back on the last line of a buffer of several
    lines when the box has a row below the cursor: it moves the cursor
    below the text, and a printable key typed there raises [IndexError]. *)
Theorem typing_below_the_text_raises (self : t) (key : Z) :
  _editable self = true ->
  is_key_printable key = true ->
  0 <= first_line_idx self ->
  1 <= cursor_y self < box_height self ->
  first_line_idx self + cursor_y self = len (lines self) ->
  len (lines self) <> 1 ->
  exists s,
    handle_input curses.KEY_DOWN self = Ok (s, None)
    /\ cursor_y s = cursor_y self + 1
    /\ first_line_idx s + cursor_y s - 1 = len (lines s)
    /\ handle_input key s = Raise IndexError.
Proof.
  destruct self as [wn y0 x0 h wd bh W ls ek cx cy fli ed editable sw].
  fields. intros -> Hp Hfli Hcy Hlast Hn.
  destruct (printable_is_no_callback key Hp) as (H1 & H2 & H3 & H4 & H5 & H6).
  eexists. split.
  - unfold handle_input.
    cbn [Z.eqb Pos.eqb curses.KEY_UP curses.KEY_DOWN].
    unfold _key_down_callback, _is_last_line. fields.
    rewrite (proj2 (Z.eqb_neq (len ls) 1)) by trivial.
    rewrite (proj2 (Z.eqb_neq (fli + cy) (len ls - 1))) by lia.
    fields.
    rewrite (proj2 (Z.eqb_neq cy bh)) by lia. fields.
    rewrite Z.min_r by lia. reflexivity.
  - fields. split; [reflexivity|]. split; [lia|].
    unfold handle_input. rewrite H1, H2, H3, H4, H5, H6, Hp.
    unfold _add_char, _check_editable_flag. fields.
    rewrite index_past_end by lia. reflexivity.
Qed.

Lemma typing_below_the_text_raises_witness :
  exists self s,
    Fixture.box 5 = Ok self
    /\ handle_inputs (of_string "HELLOAB") self = Ok s
    /\ handle_inputs [curses.KEY_DOWN; 65] s = Raise IndexError.
Proof.
  eexists. eexists. split; [vm_compute; reflexivity|].
  split; [vm_compute; reflexivity|].
  match goal with
  | |- handle_inputs _ ?b = _ =>
      destruct (typing_below_the_text_raises b 65)
        as (s' & Hd & _ & _ & Hr)
  end.
  - reflexivity.
  - reflexivity.
  - cbn; lia.
  - cbn; lia.
  - reflexivity.
  - vm_compute. discriminate.
  - cbn [handle_inputs]. rewrite Hd. cbn [bind fst]. now rewrite Hr.
Defined.

End KeySafety.

(** ** Text box: the cursor keys *)

Module CursorKeys.

Import TextBox BackspaceCursor.

(** A key that is neither Backspace nor printable. *)
Definition quiet (key : Z) : bool :=
  negb (key =? curses.KEY_BACKSPACE) && negb (is_key_printable key).

Lemma quiet_key_keeps_lines self key :
  lines self <> [] -> quiet key = true ->
  exists s, handle_input key self = Ok (s, None) /\ lines s = lines self.
Proof.
  intros Hne Hq. unfold quiet in Hq. apply andb_true_iff in Hq.
  destruct Hq as (Hb & Hp). apply negb_true_iff in Hb, Hp.
  destruct (EditGate.index_last (lines self) Hne) as (last & Hlast).
  unfold handle_input, _key_up_callback, _key_down_callback,
    _key_left_callback, _key_right_callback, _key_esc_callback.
  rewrite Hb, Hp, Hlast.
  repeat match goal with
    | |- context [if ?c then _ else _] => destruct c; cbn [bind]
    | |- context [match ?k with Some _ => _ | None => _ end] =>
        destruct k; cbn [bind]
    end; eexists; (split; [reflexivity|]); reflexivity.
Qed.

(** X21: the cursor keys, Escape and the keys the box does not know,
    that is every key but Backspace and the printable ones, never raise
    and never change the lines, in any number and in any state of the box
    that has at least one line. *)
Theorem quiet_keys_keep_the_text (self : t) (keys : list Z) :
  lines self <> [] ->
  forallb quiet keys = true ->
  exists s,
    handle_inputs keys self = Ok s
    /\ lines s = lines self
    /\ get_text s = get_text self.
Proof.
  intros Hne Hq. revert self Hne.
  induction keys as [|key rest IH]; intros self Hne; cbn [handle_inputs].
  - now exists self.
  - cbn [forallb] in Hq. apply andb_true_iff in Hq. destruct Hq as (Hk & Hr).
    destruct (quiet_key_keeps_lines self key Hne Hk) as (s1 & -> & Hl1).
    cbn [bind fst].
    destruct (IH Hr s1) as (s & Hs & Hl & Ht); [congruence|].
    exists s. unfold get_text in *. split; [exact Hs|].
    split; congruence.
Qed.

Lemma quiet_keys_keep_the_text_witness :
  exists self s,
    TextBox.init Fixture.screen 0 0 4 7 (of_string "HELLOWORLD") None = Ok self
    /\ handle_inputs [curses.KEY_DOWN; curses.KEY_RIGHT; 27; 9;
                      curses.KEY_UP; curses.KEY_LEFT] self = Ok s
    /\ lines s = lines self
    /\ get_text s = get_text self.
Proof.
  eexists. eexists. split; [vm_compute; reflexivity|].
  match goal with
  | |- handle_inputs ?ks ?b = _ /\ _ =>
      destruct (quiet_keys_keep_the_text b ks) as (s & Hs & Hl & Ht)
  end.
  - discriminate.
  - reflexivity.
  - vm_compute in Hs. injection Hs as <-. repeat split.
Defined.

(** X22: Right, when it moves the cursor, is undone by Left as far as the
    text is concerned: the cursor is back on the same line of the buffer,
    in the same column, though it may be shown one row higher with the
    window scrolled down by one line. *)
Theorem right_then_left_returns (self s1 : t) :
  1 <= cursor_x self <= box_width self ->
  1 <= cursor_y self <= box_height self ->
  0 <= first_line_idx self ->
  handle_input curses.KEY_RIGHT self = Ok (s1, None) ->
  s1 <> self ->
  exists s2,
    handle_input curses.KEY_LEFT s1 = Ok (s2, None)
    /\ first_line_idx s2 + cursor_y s2 = first_line_idx self + cursor_y self
    /\ cursor_x s2 = cursor_x self
    /\ lines s2 = lines self.
Proof.
  destruct self as [wn y0 x0 h wd bh W ls ek cx cy fli ed editable sw].
  tb_fields. intros Hcx Hcy Hfli.
  unfold handle_input.
  cbn [Z.eqb Pos.eqb curses.KEY_UP curses.KEY_DOWN curses.KEY_LEFT
       curses.KEY_RIGHT].
  unfold _key_right_callback, _key_left_callback, _is_last_line. tb_fields.
  crack; intros H Hmoved; try discriminate H; injection H as <-;
    try (exfalso; apply Hmoved; reflexivity);
    tb_fields; crack; tests_to_props;
    eexists; (split; [reflexivity|]); tb_fields;
    repeat split; try reflexivity; lia.
Qed.

Lemma right_then_left_returns_witness :
  exists self s1 s2,
    TextBox.init Fixture.screen 0 0 3 5 (of_string "abcdefg") None = Ok self
    /\ handle_inputs [curses.KEY_RIGHT; curses.KEY_RIGHT] self = Ok s1
    /\ handle_input curses.KEY_RIGHT s1 = Ok (s2, None)
    /\ exists s3,
         handle_input curses.KEY_LEFT s2 = Ok (s3, None)
         /\ first_line_idx s3 + cursor_y s3 = first_line_idx s1 + cursor_y s1
         /\ cursor_x s3 = cursor_x s1
         /\ lines s3 = lines s1.
Proof.
  do 3 eexists. split; [vm_compute; reflexivity|].
  split; [vm_compute; reflexivity|].
  split; [vm_compute; reflexivity|].
  apply right_then_left_returns.
  - cbn; lia.
  - cbn; lia.
  - cbn; lia.
  - vm_compute. reflexivity.
  - vm_compute. discriminate.
Defined.

(** X23: Up never raises; it moves the cursor to the line before in the
    buffer, scrolling when the cursor is in the top row, and at the first
    line of the buffer it changes neither the cursor nor the scroll
    offset.  The column and the lines are kept. *)
Theorem up_moves_one_line (self : t) :
  0 <= first_line_idx self ->
  1 <= cursor_y self ->
  exists s,
    handle_input curses.KEY_UP self = Ok (s, None)
    /\ first_line_idx s + cursor_y s - 1
       = Z.max 0 (first_line_idx self + cursor_y self - 2)
    /\ 0 <= first_line_idx s <= first_line_idx self
    /\ 1 <= cursor_y s <= cursor_y self
    /\ cursor_x s = cursor_x self
    /\ lines s = lines self.
Proof.
  destruct self as [wn y0 x0 h wd bh W ls ek cx cy fli ed editable sw].
  tb_fields. intros Hfli Hcy.
  unfold handle_input. cbn [Z.eqb Pos.eqb curses.KEY_UP].
  unfold _key_up_callback. tb_fields.
  destruct ((cy =? 1) && (fli >? 0)) eqn:E; tb_fields;
    eexists; (split; [reflexivity|]); tb_fields; tests_to_props;
    repeat split; try reflexivity; lia.
Qed.

Lemma up_moves_one_line_witness :
  exists self s,
    (b <- Fixture.box 4 ;; handle_inputs (of_string "HELLOWORLD") b) = Ok self
    /\ handle_input curses.KEY_UP self = Ok (s, None)
    /\ first_line_idx s + cursor_y s - 1
       = Z.max 0 (first_line_idx self + cursor_y self - 2).
Proof.
  eexists.
  match goal with
  | |- exists s, ?r = Ok ?self /\ _ =>
      let v := eval vm_compute in r in
      match v with
      | Ok ?b => destruct (up_moves_one_line b) as (s & Hs & Hl & _)
      end
  end.
  - cbn; lia.
  - cbn; lia.
  - exists s. split; [vm_compute; reflexivity|]. split; assumption.
Defined.

(** The row of the cursor is a row of the box and the scroll offset is
    not negative. *)
Definition row_in_box (h : Z) (self : t) : Prop :=
  box_height self = h
  /\ 1 <= cursor_y self <= h
  /\ 0 <= first_line_idx self.

Lemma handle_input_row_in_box h key self p :
  row_in_box h self -> handle_input key self = Ok p -> row_in_box h (fst p).
Proof.
  destruct self as [wn y0 x0 h0 wd bh W ls ek cx cy fli ed editable sw].
  unfold row_in_box. tb_fields. intros (-> & Hcy & Hfli).
  unfold handle_input, _key_up_callback, _key_down_callback,
    _key_left_callback, _key_right_callback, _remove_char, _key_esc_callback,
    _add_char, _check_editable_flag, _recompute_lines, _is_last_line.
  tb_fields. crack; intros H; try discriminate H; injection H as <-;
    tb_fields; tests_to_props; repeat split; lia.
Qed.

(** X24: whatever the keys, as long as they are handled, the cursor row
    of a text box at least 3 rows high (so with at least one interior
    row) stays within the rows of the box and the scroll offset never
    becomes negative. *)
Theorem cursor_row_stays_in_box
    (win : curses.window) (y0 x0 h w : Z) (text : str) (ek : option str)
    (keys : list Z) (self : t) :
  3 <= h ->
  (b <- init win y0 x0 h w text ek ;; handle_inputs keys b) = Ok self ->
  1 <= cursor_y self <= box_height self
  /\ 0 <= first_line_idx self
  /\ box_height self = h - 2.
Proof.
  intros Hh. unfold init.
  destruct (_split_text (w - 2) text) as [ls | e]; cbn [bind];
    [|discriminate].
  match goal with
  | |- handle_inputs keys ?b = _ -> _ =>
      assert (H0 : row_in_box (h - 2) b)
        by (unfold row_in_box; cbn; repeat split; lia);
      generalize dependent b
  end.
  induction keys as [|key rest IH]; intros b Hb; cbn [handle_inputs].
  - intros H. injection H as <-. destruct Hb as (Hbh & Hcy & Hfli).
    rewrite Hbh. repeat split; lia.
  - destruct (handle_input key b) as [p | e] eqn:E; cbn [bind];
      [|discriminate].
    apply IH. now apply (handle_input_row_in_box (h - 2) key b).
Qed.

Lemma cursor_row_stays_in_box_witness :
  exists self,
    (b <- init Fixture.screen 0 0 4 7 [] None ;;
     handle_inputs (of_string "HELLOWORLD" ++ [curses.KEY_BACKSPACE]) b)
    = Ok self
    /\ 1 <= cursor_y self <= box_height self
    /\ 0 <= first_line_idx self
    /\ box_height self = 4 - 2.
Proof.
  eexists. split; [vm_compute; reflexivity|].
  apply (cursor_row_stays_in_box Fixture.screen 0 0 4 7 [] None
           (of_string "HELLOWORLD" ++ [curses.KEY_BACKSPACE]));
    [lia | vm_compute; reflexivity].
Defined.

End CursorKeys.

(** ** Text box: what is drawn *)

Module Rendering.

Import TextBox Reflow.

Lemma reflowed_lines_short self :
  InsertDelete.reflowed self ->
  Forall (fun l => len l <= box_width self) (lines self).
Proof.
  intros (HW & Hs). rewrite split_text_chunks in Hs by trivial.
  injection Hs as <-. unfold chunks. apply Forall_map, Forall_forall.
  intros i _. unfold len. rewrite length_firstn. lia.
Qed.

Lemma add_text_loop_calls (ls : list str) (rows : nat) :
  forall (i : nat) n,
    exists calls,
      add_text_loop rows (Z.of_nat i) n ls = Ok calls
      /\ length calls = Nat.min rows (length ls - i)
      /\ forall k c,
           nth_error calls k = Some c ->
           exists line,
             nth_error ls (i + k) = Some line
             /\ c = (n + Z.of_nat k + 1, 1, line).
Proof.
  induction rows as [|rows IH]; intros i n; cbn [add_text_loop].
  - exists []. repeat split. intros [|k] c; discriminate.
  - destruct (Z.of_nat i <? len ls) eqn:E.
    + apply Z.ltb_lt in E. unfold len in E.
      destruct (nth_error ls i) as [line|] eqn:En;
        [|apply nth_error_None in En; lia].
      rewrite (index_nth ls i line En). cbn [bind].
      destruct (IH (S i) (n + 1)) as (calls & Hc & Hlen & Hnth).
      replace (Z.of_nat i + 1) with (Z.of_nat (S i)) by lia.
      rewrite Hc. cbn [bind].
      exists ((n + 1, 1, line) :: calls). split; [reflexivity|]. split.
      * cbn [length]. lia.
      * intros [|k] c; cbn [nth_error]; intros H.
        -- injection H as <-. exists line. rewrite Nat.add_0_r.
           split; [exact En|]. do 2 f_equal. lia.
        -- destruct (Hnth k c H) as (l & Hl & ->). exists l.
           replace (i + S k)%nat with (S i + k)%nat by lia.
           split; [exact Hl|]. do 2 f_equal. lia.
    + apply Z.ltb_ge in E. unfold len in E. exists []. split; [reflexivity|].
      split; [cbn [length]; lia|]. intros [|k] c; discriminate.
Qed.

(** X25: in a box whose sub-window has the rows and columns of the box
    and its border, with the lines reflowed and the scroll offset not
    negative, every [addstr] that [_add_text] issues lies inside the
    border of the sub-window, and no line index is out of range: it writes
    the lines of the buffer from [first_line_idx] on, one per row from
    row 1, as many as there are left and at most [box_height]; each is
    written at column 1, on a row above the bottom border, and ends before
    the right border. *)
Theorem text_is_drawn_inside_the_border (self : t) :
  InsertDelete.reflowed self ->
  0 <= first_line_idx self ->
  curses.maxy (subwin self) = box_height self + 2 ->
  curses.maxx (subwin self) = box_width self + 2 ->
  exists calls,
    _add_text self = Ok calls
    /\ len calls
       = Z.max 0 (Z.min (box_height self)
                    (len (lines self) - first_line_idx self))
    /\ forall k c,
         nth_error calls k = Some c ->
         exists line,
           nth_error (lines self) (Z.to_nat (first_line_idx self) + k)
           = Some line
           /\ c = (Z.of_nat k + 1, 1, line)
           /\ 1 <= Z.of_nat k + 1 <= curses.maxy (subwin self) - 2
           /\ 1 + len line <= curses.maxx (subwin self) - 1.
Proof.
  intros Hr Hfli Hrows Hcols.
  pose proof (reflowed_lines_short self Hr) as Hshort.
  unfold _add_text.
  destruct (add_text_loop_calls (lines self) (Z.to_nat (box_height self))
              (Z.to_nat (first_line_idx self)) 0)
    as (calls & Hc & Hlen & Hnth).
  rewrite Z2Nat.id in Hc by trivial.
  exists calls. split; [exact Hc|]. split.
  - unfold len. rewrite Hlen. lia.
  - intros k c Hk. destruct (Hnth k c Hk) as (line & Hl & ->).
    exists line. split; [exact Hl|]. split; [reflexivity|]. split.
    + assert (Hlt : (k < length calls)%nat)
        by (apply nth_error_Some; congruence).
      lia.
    + rewrite Forall_forall in Hshort.
      assert (len line <= box_width self)
        by (apply Hshort; eapply nth_error_In; exact Hl).
      lia.
Qed.

Lemma text_is_drawn_inside_the_border_witness :
  exists self calls,
    (b <- Fixture.box 4 ;; handle_inputs (of_string "HELLOWORLD") b) = Ok self
    /\ _add_text self = Ok calls
    /\ len calls = Z.max 0 (Z.min 2 (3 - 1)).
Proof.
  eexists.
  match goal with
  | |- exists calls, ?r = Ok ?self /\ _ =>
      let v := eval vm_compute in r in
      match v with
      | Ok ?b =>
          destruct (text_is_drawn_inside_the_border b)
            as (calls & Hc & Hl & _)
      end
  end.
  - split; [cbn; lia | vm_compute; reflexivity].
  - cbn; lia.
  - reflexivity.
  - reflexivity.
  - exists calls. split; [vm_compute; reflexivity|]. split; assumption.
Defined.

End Rendering.

(** ** Text box: Backspace inside the text *)

Module Deleting.

Import TextBox Reflow InsertDelete.

(** X26: in an editable box with reflowed lines, Backspace with the
    cursor on the text and right of column 1 is handled without error and
    removes exactly the character before the cursor: the text is one
    character shorter, the characters before and after keep their order,
    and the cursor moves one column left on the same row. *)
Theorem backspace_removes_the_character_before (self : t) :
  reflowed self ->
  _editable self = true ->
  0 <= first_line_idx self ->
  1 <= cursor_y self ->
  2 <= cursor_x self <= box_width self + 1 ->
  (first_line_idx self + cursor_y self - 1) * box_width self
    + (cursor_x self - 1) <= len (get_text self) ->
  let p := Z.to_nat ((first_line_idx self + cursor_y self - 1) * box_width self
                     + (cursor_x self - 1)) in
  exists s,
    handle_input curses.KEY_BACKSPACE self = Ok (s, None)
    /\ get_text s = firstn (p - 1) (get_text self) ++ skipn p (get_text self)
    /\ len (get_text s) = len (get_text self) - 1
    /\ cursor_x s = cursor_x self - 1
    /\ cursor_y s = cursor_y self
    /\ first_line_idx s = first_line_idx self.
Proof.
  intros (HW & Hsplit) He Hfli Hcy Hcx Hpos p.
  set (i := Z.to_nat (first_line_idx self + cursor_y self - 1)).
  set (k := Z.to_nat (cursor_x self - 2)).
  set (text := get_text self) in *.
  assert (Hl : lines self = reflow (box_width self) text).
  { rewrite split_text_chunks in Hsplit by trivial. now injection Hsplit. }
  assert (Hp : p = S (i * Z.to_nat (box_width self) + k)).
  { unfold p, i, k. nia. }
  assert (Hin : (p <= length text)%nat) by (unfold p, len in *; lia).
  rewrite (delete_inside self text i k) by (unfold i, k; trivial; nia).
  eexists. split; [reflexivity|].
  assert (Hjoin : forall t', join (reflow (box_width self) t') = t').
  { intros t'. unfold reflow. rewrite join_chunks. apply firstn_all2.
    pose proof (n_lines_covers (box_width self) t' HW). lia. }
  destruct self. unfold get_text. fields. rewrite Hjoin. unfold take_out.
  rewrite Hp. cbn [Nat.sub]. rewrite Nat.sub_0_r.
  repeat split; try reflexivity.
  unfold len. rewrite length_app, length_firstn, length_skipn. lia.
Qed.

Lemma backspace_removes_the_character_before_witness :
  exists self s,
    (b <- Fixture.box 4 ;; handle_inputs (of_string "HELLOW") b) = Ok self
    /\ handle_input curses.KEY_BACKSPACE self = Ok (s, None)
    /\ get_text s = of_string "HELLO".
Proof.
  eexists.
  match goal with
  | |- exists s, ?r = Ok ?self /\ _ =>
      let v := eval vm_compute in r in
      match v with
      | Ok ?b =>
          destruct (backspace_removes_the_character_before b)
            as (s & Hs & Ht & _)
      end
  end.
  - split; [cbn; lia | vm_compute; reflexivity].
  - reflexivity.
  - cbn; lia.
  - cbn; lia.
  - cbn; lia.
  - vm_compute. discriminate.
  - exists s. split; [vm_compute; reflexivity|]. split; [exact Hs|].
    rewrite Ht. vm_compute. reflexivity.
Defined.

End Deleting.

(** ** Widget manager: a key reaches the focused widget only *)

Module FocusIsolation.

Import WidgetManager.

Lemma draw_inactive w w' : draw false w = Ok w' -> w' = w.
Proof.
  destruct w as [f | m | b]; cbn [draw].
  - intros H. now injection H as <-.
  - unfold MenuSelector.draw.
    match goal with
    | |- bind (bind ?c _) _ = _ -> _ => destruct c
    end; cbn [bind]; [|discriminate].
    intros H. now injection H as <-.
  - intros H. now injection H as <-.
Qed.

Lemma draw_from_others active ws :
  forall i ws',
    draw_from i active ws = Ok ws' ->
    length ws' = length ws
    /\ forall j : nat, i + Z.of_nat j <> active ->
                       nth_error ws' j = nth_error ws j.
Proof.
  induction ws as [|w ws IH]; intros i ws'; cbn [draw_from].
  - intros H. injection H as <-. now split.
  - destruct (draw (i =? active) w) as [w1 | e] eqn:Ed; cbn [bind];
      [|discriminate].
    destruct (draw_from (i + 1) active ws) as [ws1 | e] eqn:Er; cbn [bind];
      [|discriminate].
    intros H. injection H as <-.
    destruct (IH _ _ Er) as (Hlen & Hnth). split; [cbn; lia|].
    intros [|j] Hj; cbn [nth_error].
    + f_equal. destruct (Z.eqb_spec i active) as [-> | Hne]; [lia|].
      now apply draw_inactive.
    + apply Hnth. lia.
Qed.

Lemma replace_nth_other {A} (l : list A) n v j :
  j <> n -> nth_error (replace_nth l n v) j = nth_error l j.
Proof.
  revert n j. induction l as [|h t IH]; intros [|n] [|j] Hj; cbn;
    try reflexivity; try congruence.
  apply IH. congruence.
Qed.

(** X27: a key other than Tab is given to the focused widget alone: when
    [run] has handled it and waits for the next key, the focus has not
    moved and every other widget of the list is exactly as it was. *)
Theorem other_widgets_untouched (self self' : t) (key : Z) (j : nat) :
  key <> 9 ->
  0 <= active_selector self ->
  loop [key] self = Blocked self' ->
  Z.of_nat j <> active_selector self ->
  active_selector self' = active_selector self
  /\ length (widgets self') = length (widgets self)
  /\ nth_error (widgets self') j = nth_error (widgets self) j.
Proof.
  intros Hk Ha H Hj. cbn [loop] in H.
  rewrite (proj2 (Z.eqb_neq key 9) Hk) in H.
  destruct (index (widgets self) (active_selector self)) as [w | e];
    cbn [bind] in H; [|discriminate].
  destruct (handle_input key w) as [[w' r] | e]; cbn [bind fst snd] in H;
    [|discriminate].
  unfold setitem in H.
  rewrite (proj2 (Z.ltb_ge (active_selector self) 0) Ha) in H.
  destruct ((0 <=? active_selector self)
            && (active_selector self <? len (widgets self)));
    cbn [bind] in H; [|discriminate].
  destruct r as [r|]; [discriminate|].
  unfold draw_all in H. cbn [widgets active_selector] in H.
  match type of H with
  | match bind ?c _ with _ => _ end = _ =>
      destruct c as [ws | e] eqn:Ed; cbn [bind] in H; [|discriminate]
  end.
  injection H as <-. cbn [widgets active_selector].
  destruct (draw_from_others _ _ _ _ Ed) as (Hlen & Hnth).
  rewrite replace_nth_length in Hlen.
  split; [reflexivity|]. split; [exact Hlen|].
  rewrite Hnth by lia. apply replace_nth_other. lia.
Qed.

Lemma other_widgets_untouched_witness :
  exists self',
    loop [curses.KEY_DOWN]
      (mk [Input (InputField.init Fixture.screen 0 0 (of_string "Name:")
                    false 15 1);
           Menu (MenuSelector.init Fixture.screen Fixture.abc 2 0 2 10
                   VERTICAL LEFT)] 1)
    = Blocked self'
    /\ nth_error (widgets self') 0
       = Some (Input (InputField.init Fixture.screen 0 0 (of_string "Name:")
                        false 15 1)).
Proof.
  eexists. split; [vm_compute; reflexivity|].
  apply (other_widgets_untouched
           (mk [Input (InputField.init Fixture.screen 0 0 (of_string "Name:")
                         false 15 1);
                Menu (MenuSelector.init Fixture.screen Fixture.abc 2 0 2 10
                        VERTICAL LEFT)] 1)
           _ curses.KEY_DOWN 0).
  - discriminate.
  - cbn. lia.
  - vm_compute. reflexivity.
  - discriminate.
Defined.

End FocusIsolation.

(** ** String painter: centring a block of strings *)

Module BlockCentering.

Import string_painter.

(** X28: [compute_strs_centered] puts the strings on consecutive rows,
    each centred in the width.  When there are no more strings than rows,
    the block is within the rows of the window with margins above and
    below that differ by at most one; and a string no longer than the
    window is within its columns with margins left and right that differ
    by at most one. *)
Theorem block_is_centered (window : curses.window)
    (pre : list str) (s : str) (post : list str) :
  len (pre ++ s :: post) <= curses.maxy window ->
  len s <= curses.maxx window ->
  let strings := pre ++ s :: post in
  let top := (curses.maxy window - len strings) / 2 in
  let col := (curses.maxx window - len s) / 2 in
  nth_error (compute_strs_centered window strings) (length pre)
  = Some (top + len pre, col)
  /\ 0 <= top /\ top + len strings <= curses.maxy window
  /\ -1 <= (curses.maxy window - (top + len strings)) - top <= 1
  /\ 0 <= col /\ col + len s <= curses.maxx window
  /\ -1 <= (curses.maxx window - (col + len s)) - col <= 1.
Proof.
  intros Hrows Hcols strings top col. unfold compute_strs_centered.
  fold strings. fold top. unfold strings at 1.
  rewrite Layout.place_column_nth. fold col.
  split; [do 2 f_equal; lia|].
  pose proof (Z.div_mod (curses.maxy window - len strings) 2).
  pose proof (Z.mod_pos_bound (curses.maxy window - len strings) 2).
  pose proof (Z.div_mod (curses.maxx window - len s) 2).
  pose proof (Z.mod_pos_bound (curses.maxx window - len s) 2).
  fold strings in Hrows. unfold top, col. repeat split; lia.
Qed.

Lemma block_is_centered_witness :
  let strings := [of_string "ab"] ++ of_string "cde" :: [of_string "f"] in
  let top := (5 - len strings) / 2 in
  let col := (20 - 3) / 2 in
  nth_error (compute_strs_centered (curses.mkWindow 5 20) strings) 1
  = Some (top + 1, col)
  /\ 0 <= top /\ top + len strings <= 5
  /\ -1 <= (5 - (top + len strings)) - top <= 1
  /\ 0 <= col /\ col + 3 <= 20
  /\ -1 <= (20 - (col + 3)) - col <= 1.
Proof.
  apply (block_is_centered (curses.mkWindow 5 20) [of_string "ab"]
           (of_string "cde") [of_string "f"]); vm_compute; discriminate.
Defined.

End BlockCentering.
